(** * FrameIt: the image routes of the server, over an explicit store

    A shallow embedding of [server/src/routes/images.js] together with the two
    Mongoose models it reads and writes ([models/Image.js], [models/Like.js]).

    The two MongoDB collections are lists of documents in natural (insertion)
    order, and every handler is a function from the store before the request
    to the store after it and the HTTP reply.  The [authenticate] middleware
    has already run: a handler receives the requester's id.

    Modelling conventions:
    - a JavaScript [Number] that holds a count or a timestamp is a [Z];
    - a JavaScript string is the Rocq string of its UTF-8 bytes;
    - an ObjectId is a [nat]; the driver draws new ones from a counter kept in
      the store;
    - [page] and [limit] are the values of [parseInt(page)] and
      [parseInt(limit)] (1 and 20 when the query omits them);
    - [createdAt] defaults to [Date.now], which the handlers receive as [now];
      the [updatedAt] stamp of the [timestamps] option is read by no route and
      is left out. *)

From Stdlib Require Import ZArith.
From stdpp Require Import base list gmap strings sorting.

(** ** Identifiers *)

Abbreviation ObjectId := nat (only parsing).

(** [o.toString()]: the 24-digit hexadecimal rendering of an ObjectId.  Two
    renderings are the same string exactly when the ids are the same. *)
Record HexString := Hex { hex_id : ObjectId }.

#[global] Instance HexString_eq_dec : EqDecision HexString.
Proof. solve_decision. Defined.

Definition toString (o : ObjectId) : HexString := Hex o.

#[global] Instance hex_id_inj : Inj (=) (=) hex_id.
Proof. by intros [a] [b] [= ->]. Qed.

(** The values that meet in the handlers' comparisons: an ObjectId object as
    the driver hands it out, or a primitive string. *)
Inductive JsValue :=
  | JsObjectId (o : ObjectId)
  | JsString (h : HexString).

(** SameValueZero against a primitive string, the comparison of
    [Array.prototype.includes]: only a string of the same characters is equal
    to a string; an object never is. *)
Definition sameValueZero_string (v : JsValue) (needle : HexString) : bool :=
  match v with
  | JsString h => bool_decide (h = needle)
  | JsObjectId _ => false
  end.

Definition includes (arr : list JsValue) (needle : HexString) : bool :=
  existsb (λ v, sameValueZero_string v needle) arr.

(** [v.toString()] on either kind of value. *)
Definition JsValue_toString (v : JsValue) : HexString :=
  match v with
  | JsObjectId o => toString o
  | JsString h => h
  end.

(** ** Documents (models/Image.js, models/Like.js) *)

Module Image.
Record t := mk {
  _id : ObjectId;
  filename : string;
  originalname : string;
  filepath : string;
  uploadedBy : ObjectId;
  description : string;
  isPublic : bool;
  likesCount : Z;
  createdAt : Z
}.

Definition set_likesCount (c : Z) (d : t) : t :=
  mk (_id d) (filename d) (originalname d) (filepath d) (uploadedBy d)
     (description d) (isPublic d) c (createdAt d).
End Image.

Module Like.
Record t := mk {
  _id : ObjectId;
  userId : ObjectId;
  imageId : ObjectId;
  createdAt : Z
}.
End Like.

#[global] Instance Image_eq_dec : EqDecision Image.t.
Proof. solve_decision. Defined.

#[global] Instance Like_eq_dec : EqDecision Like.t.
Proof. solve_decision. Defined.

Record Store := mkStore {
  images : list Image.t;
  likes : list Like.t;
  nextId : ObjectId
}.

Definition empty_store : Store := mkStore [] [] 0.

(** ** The collection operations the routes call *)

Section Collection.
Context {A : Type} (P : A → Prop) `{!∀ d, Decision (P d)}.

(** [findOne(q)] / [findById(id)]: the first matching document. *)
Fixpoint findOne (c : list A) : option A :=
  match c with
  | [] => None
  | d :: c' => if decide (P d) then Some d else findOne c'
  end.

(** [deleteOne(q)]: the first matching document goes. *)
Fixpoint deleteOne (c : list A) : list A :=
  match c with
  | [] => []
  | d :: c' => if decide (P d) then c' else d :: deleteOne c'
  end.

(** [deleteMany(q)]: every matching document goes. *)
Definition deleteMany (c : list A) : list A := filter (λ d, ¬ P d) c.

(** [countDocuments(q)]. *)
Definition countDocuments (c : list A) : nat := length (filter P c).

(** [doc.save()] on a loaded document: the stored document of that query
    is replaced by the new value. *)
Fixpoint replaceOne (d' : A) (c : list A) : list A :=
  match c with
  | [] => []
  | d :: c' => if decide (P d) then d' :: c' else d :: replaceOne d' c'
  end.
End Collection.

(** [.sort({createdAt: -1})] and [arr.sort((a, b) => new Date(b.createdAt) -
    new Date(a.createdAt))]: newest first, documents of equal time keep their
    relative order. *)
Section SortDesc.
Context {A : Type} (key : A → Z).

Fixpoint insert_desc (x : A) (l : list A) : list A :=
  match l with
  | [] => [x]
  | y :: l' => if decide (key x < key y)%Z then y :: insert_desc x l'
               else x :: y :: l'
  end.

Definition sort_desc (l : list A) : list A := foldr insert_desc [] l.
End SortDesc.

(** Replies: the status code, and the body where the claims read it. *)
Inductive Reply (B : Type) :=
  | OK200 (body : B)
  | Created201 (body : B)
  | BadRequest400
  | Forbidden403
  | NotFound404
  | Error500.
Arguments OK200 {B} body.
Arguments Created201 {B} body.
Arguments BadRequest400 {B}.
Arguments Forbidden403 {B}.
Arguments NotFound404 {B}.
Arguments Error500 {B}.

(** [{...img, isLiked}] *)
Record ImageJson := mkImageJson { doc : Image.t; isLiked : bool }.

(** [{success: true, images, total, page, pages}]; [pages] is [None] where
    [Math.ceil] yields no finite number (a zero [limit]). *)
Record PageBody := mkPageBody {
  pb_images : list ImageJson;
  pb_total : nat;
  pb_page : Z;
  pb_pages : option Z
}.

(** [Math.ceil(a / b)] on integers. *)
Definition ceil_div (a b : Z) : Z := (- ((- a) / b))%Z.

Definition pages_of (total : nat) (limit : Z) : option Z :=
  if decide (limit = 0%Z) then None else Some (ceil_div (Z.of_nat total) limit).

(** [.skip(n)]: the server rejects a negative skip. *)
Definition mongo_skip {A} (n : Z) (c : list A) : option (list A) :=
  if decide (n < 0)%Z then None else Some (drop (Z.to_nat n) c).

(** [.limit(n)]: zero means no limit, a negative limit counts as its
    absolute value. *)
Definition mongo_limit {A} (n : Z) (c : list A) : list A :=
  if decide (n = 0%Z) then c else take (Z.to_nat (Z.abs n)) c.

(** [arr.slice(start, end)], negative indices counting from the end. *)
Definition relative_index (k : Z) (len : nat) : nat :=
  if decide (k < 0)%Z then Z.to_nat (Z.max (Z.of_nat len + k) 0)
  else Z.to_nat (Z.min k (Z.of_nat len)).

Definition slice {A} (l : list A) (start stop : Z) : list A :=
  let from := relative_index start (length l) in
  let to := relative_index stop (length l) in
  take (to - from) (drop from l).

(** [.distinct('imageId')]: the distinct values, as ObjectId objects. *)
Definition distinct_imageId (ls : list Like.t) : list JsValue :=
  JsObjectId <$> remove_dups (Like.imageId <$> ls).

(** [{_id: {$in: ids}}]: the query casts each value to an ObjectId. *)
Definition cast_ObjectId (v : JsValue) : ObjectId :=
  hex_id (JsValue_toString v).

(** ** GET /user: the requester's uploads (images.js, lines 120-155) *)

Definition uploaded_by (user : ObjectId) (d : Image.t) : Prop :=
  Image.uploadedBy d = user.

Definition liked_by (user : ObjectId) (l : Like.t) : Prop :=
  Like.userId l = user.

#[global] Instance uploaded_by_dec user d : Decision (uploaded_by user d).
Proof. unfold uploaded_by. apply _. Defined.

#[global] Instance liked_by_dec user l : Decision (liked_by user l).
Proof. unfold liked_by. apply _. Defined.

Definition get_user_images (s : Store) (user : ObjectId) (page limit : Z)
  : Reply PageBody :=
  let skip := ((page - 1) * limit)%Z in
  match mongo_skip skip
          (sort_desc Image.createdAt (filter (uploaded_by user) (images s))) with
  | None => Error500
  | Some skipped =>
      let imgs := mongo_limit limit skipped in
      let total := countDocuments (uploaded_by user) (images s) in
      let likedImageIds := distinct_imageId (filter (liked_by user) (likes s)) in
      let imagesWithLikeStatus :=
        (λ img, mkImageJson img
                  (includes likedImageIds (toString (Image._id img)))) <$> imgs in
      OK200 (mkPageBody imagesWithLikeStatus total page (pages_of total limit))
  end.

(** ** GET /liked: the requester's liked images (lines 157-202) *)

#[global] Instance HexString_countable : Countable HexString.
Proof. apply (inj_countable' hex_id Hex). by intros []. Defined.

(** [imageMap[img._id.toString()] = img] for every fetched image. *)
Definition build_imageMap (imgs : list Image.t) : gmap HexString Image.t :=
  foldl (λ m img, <[toString (Image._id img) := img]> m) ∅ imgs.

Definition liked_page (s : Store) (user : ObjectId) (page limit : Z)
  : option (list Like.t) :=
  mongo_limit limit <$>
    mongo_skip ((page - 1) * limit)%Z
      (sort_desc Like.createdAt (filter (liked_by user) (likes s))).

Definition get_liked (s : Store) (user : ObjectId) (page limit : Z)
  : Reply PageBody :=
  match liked_page s user page limit with
  | None => Error500
  | Some likes_page =>
      let imageIds := Like.imageId <$> likes_page in
      let imgs := filter (λ d, Image._id d ∈ imageIds) (images s) in
      let imageMap := build_imageMap imgs in
      let orderedImages := omap (λ id, imageMap !! toString id) imageIds in
      let total := countDocuments (liked_by user) (likes s) in
      let imagesWithLikeStatus := (λ img, mkImageJson img true) <$> orderedImages in
      OK200 (mkPageBody imagesWithLikeStatus total page (pages_of total limit))
  end.

(** ** GET /collection: uploads and liked images together (lines 204-246) *)

(** [new Map(entries)]: a key keeps the position of its first insertion and
    the value of its last. *)
Fixpoint Map_set (k : HexString) (v : Image.t) (m : list (HexString * Image.t))
  : list (HexString * Image.t) :=
  match m with
  | [] => [(k, v)]
  | (k', v') :: m' =>
      if decide (k' = k) then (k, v) :: m' else (k', v') :: Map_set k v m'
  end.

Definition Map_of (entries : list (HexString * Image.t))
  : list (HexString * Image.t) :=
  foldl (λ m e, Map_set e.1 e.2 m) [] entries.

Definition Map_values (m : list (HexString * Image.t)) : list Image.t := m.*2.

Definition userUploads (s : Store) (user : ObjectId) : list Image.t :=
  filter (uploaded_by user) (images s).

Definition likedImages (s : Store) (user : ObjectId) : list JsValue :=
  distinct_imageId (filter (liked_by user) (likes s)).

Definition likedImageDocs (s : Store) (user : ObjectId) : list Image.t :=
  filter (λ d, Image._id d ∈ cast_ObjectId <$> likedImages s user) (images s).

(** [allImages.map(img => [img._id.toString(), img])] *)
Definition keyed (allImages : list Image.t) : list (HexString * Image.t) :=
  (λ img, (toString (Image._id img), img)) <$> allImages.

Definition uniqueImages (s : Store) (user : ObjectId) : list Image.t :=
  let allImages := userUploads s user ++ likedImageDocs s user in
  sort_desc Image.createdAt (Map_values (Map_of (keyed allImages))).

(** [likedImages.some(id => id.toString() === img._id.toString())] *)
Definition some_liked (liked : list JsValue) (img : Image.t) : bool :=
  existsb (λ id, bool_decide (JsValue_toString id = toString (Image._id img)))
          liked.

Definition get_collection (s : Store) (user : ObjectId) (page limit : Z)
  : Reply PageBody :=
  let skip := ((page - 1) * limit)%Z in
  let unique := uniqueImages s user in
  let paginatedImages := slice unique skip (skip + limit)%Z in
  let imagesWithLikeStatus :=
    (λ img, mkImageJson img (some_liked (likedImages s user) img))
      <$> paginatedImages in
  OK200 (mkPageBody imagesWithLikeStatus (length unique) page
           (pages_of (length unique) limit)).

(** ** POST /:imageId/like (lines 248-300) *)

(** [{success: true, message, isLiked, likesCount}] *)
Record LikeBody := mkLikeBody {
  lb_message : string;
  lb_isLiked : bool;
  lb_likesCount : Z
}.

Definition has_id (i : ObjectId) (d : Image.t) : Prop := Image._id d = i.

Definition like_has_id (i : ObjectId) (l : Like.t) : Prop := Like._id l = i.

Definition like_of (user imageId : ObjectId) (l : Like.t) : Prop :=
  Like.userId l = user ∧ Like.imageId l = imageId.

Definition like_on (imageId : ObjectId) (l : Like.t) : Prop :=
  Like.imageId l = imageId.

#[global] Instance has_id_dec i d : Decision (has_id i d).
Proof. unfold has_id. apply _. Defined.

#[global] Instance like_has_id_dec i l : Decision (like_has_id i l).
Proof. unfold like_has_id. apply _. Defined.

#[global] Instance like_of_dec u i l : Decision (like_of u i l).
Proof. unfold like_of. apply _. Defined.

#[global] Instance like_on_dec i l : Decision (like_on i l).
Proof. unfold like_on. apply _. Defined.

(** The unique (userId, imageId) index cannot reject the insert of the like
    branch: [findOne] has just answered null on the same collection. *)
Definition toggle_like (s : Store) (user imageId : ObjectId) (now : Z)
  : Store * Reply LikeBody :=
  match findOne (has_id imageId) (images s) with
  | None => (s, NotFound404)
  | Some image =>
      match findOne (like_of user imageId) (likes s) with
      | Some existingLike =>
          let likes' := deleteOne (like_has_id (Like._id existingLike)) (likes s) in
          let image' :=
            Image.set_likesCount (Z.max 0 (Image.likesCount image - 1)) image in
          let images' := replaceOne (has_id (Image._id image')) image' (images s) in
          (mkStore images' likes' (nextId s),
           OK200 (mkLikeBody "Image unliked" false (Image.likesCount image')))
      | None =>
          let like := Like.mk (nextId s) user imageId now in
          let likes' := likes s ++ [like] in
          let image' :=
            Image.set_likesCount (Image.likesCount image + 1) image in
          let images' := replaceOne (has_id (Image._id image')) image' (images s) in
          (mkStore images' likes' (S (nextId s)),
           OK200 (mkLikeBody "Image liked" true (Image.likesCount image')))
      end
  end.

(** ** DELETE /:imageId (lines 302-342)

    The removal of the stored file is best effort and touches no record. *)
Definition delete_image (s : Store) (user imageId : ObjectId)
  : Store * Reply unit :=
  match findOne (has_id imageId) (images s) with
  | None => (s, NotFound404)
  | Some image =>
      if decide (toString (Image.uploadedBy image) ≠ toString user)
      then (s, Forbidden403)
      else
        let likes' := deleteMany (like_on imageId) (likes s) in
        let images' := deleteOne (has_id imageId) (images s) in
        (mkStore images' likes' (nextId s), OK200 ())
  end.

(** ** GET /stats (lines 344-360) *)

(** [img.likesCount || 0] *)
Definition or_zero (c : Z) : Z := if decide (c = 0%Z) then 0%Z else c.

Definition get_stats (s : Store) (user : ObjectId) : Reply Z :=
  let imgs := filter (uploaded_by user) (images s) in
  let totalLikes :=
    foldl (λ sum img, (sum + or_zero (Image.likesCount img))%Z) 0%Z imgs in
  OK200 totalLikes.

(** ** POST /upload (lines 47-118)

    [file] is what multer stored ([None]: no file in the request);
    [description] is the trimmed body field, empty when absent; [isPublic] is
    the body field as it was sent ([None]: absent). *)
Record UploadedFile := mkUploadedFile {
  uf_filename : string;
  uf_originalname : string
}.

(** A byte of the form 10xxxxxx continues a character. *)
Definition utf8_continuation (c : Ascii.ascii) : bool :=
  (128 <=? Ascii.nat_of_ascii c) && (Ascii.nat_of_ascii c <? 192).

(** [str.length], the UTF-16 code units: a character of four UTF-8 bytes (a
    surrogate pair) takes two, every other character one. *)
Fixpoint js_length (str : string) : nat :=
  match str with
  | EmptyString => 0
  | String c rest =>
      (if utf8_continuation c then 0
       else if 240 <=? Ascii.nat_of_ascii c then 2 else 1) + js_length rest
  end.

(** The presentation selectors U+FE0E and U+FE0F (EF B8 8E, EF B8 8F). *)
Definition presentation_selector (str : string) : bool :=
  match str with
  | String a (String b (String c _)) =>
      (Ascii.nat_of_ascii a =? 239) && (Ascii.nat_of_ascii b =? 184) &&
      ((Ascii.nat_of_ascii c =? 142) || (Ascii.nat_of_ascii c =? 143))
  | _ => false
  end.

(** What [isLength] of the validator measures: [str.length] less the
    surrogate pairs and the presentation selectors, that is, one for every
    character that is not a presentation selector. *)
Fixpoint isLength_len (str : string) : nat :=
  match str with
  | EmptyString => 0
  | String c rest =>
      (if utf8_continuation c then 0
       else if presentation_selector (String c rest) then 0 else 1)
      + isLength_len rest
  end.

(** [isBoolean()] of the validator on a form field. *)
Definition isBoolean (str : string) : Prop :=
  str ∈ ["true"; "false"; "1"; "0"].

(** [body('isPublic').optional().isBoolean()], lines 57-60 *)
Definition isPublic_passes (isPublic : option string) : Prop :=
  match isPublic with
  | None => True
  | Some str => isBoolean str
  end.

#[global] Instance isBoolean_dec str : Decision (isBoolean str).
Proof. unfold isBoolean. apply _. Defined.

#[global] Instance isPublic_passes_dec isPublic :
  Decision (isPublic_passes isPublic).
Proof. destruct isPublic; simpl; apply _. Defined.

(** The two validation chains answer 400 (lines 71-78).  [image.save()]
    then runs the schema of models/Image.js, whose [maxlength] compares
    [description.length], and the insert, which the unique index on
    [filename] can refuse; either failure is caught and answers 500 (lines
    107-116).  Line 88 stores [isPublic === 'true' || isPublic === true]. *)
Definition upload (s : Store) (user : ObjectId) (file : option UploadedFile)
    (description : string) (isPublic : option string) (now : Z)
  : Store * Reply Image.t :=
  match file with
  | None => (s, BadRequest400)
  | Some f =>
      if decide (500 < isLength_len description) then (s, BadRequest400)
      else if decide (¬ isPublic_passes isPublic) then (s, BadRequest400)
      else if decide (500 < js_length description) then (s, Error500)
      else if decide (uf_filename f ∈ Image.filename <$> images s)
      then (s, Error500)
      else
        let image :=
          Image.mk (nextId s) (uf_filename f) (uf_originalname f)
                   ("/uploads/" +:+ uf_filename f) user description
                   (bool_decide (isPublic = Some "true")) 0%Z now in
        (mkStore (images s ++ [image]) (likes s) (S (nextId s)),
         Created201 image)
  end.

(** ** Sequences of mutating requests *)

Inductive Request :=
  | ReqUpload (user : ObjectId) (file : option UploadedFile)
              (description : string) (isPublic : option string) (now : Z)
  | ReqLike (user imageId : ObjectId) (now : Z)
  | ReqDelete (user imageId : ObjectId).

Definition step (s : Store) (r : Request) : Store :=
  match r with
  | ReqUpload user file description isPublic now =>
      (upload s user file description isPublic now).1
  | ReqLike user imageId now => (toggle_like s user imageId now).1
  | ReqDelete user imageId => (delete_image s user imageId).1
  end.

Definition run (reqs : list Request) (s : Store) : Store := foldl step s reqs.

(** A run of toggles by one user on one image, keeping the last reply. *)
Fixpoint toggle_many (s : Store) (user imageId : ObjectId) (times : list Z)
    (last : option (Reply LikeBody)) : Store * option (Reply LikeBody) :=
  match times with
  | [] => (s, last)
  | now :: times' =>
      toggle_many (toggle_like s user imageId now).1 user imageId times'
                  (Some (toggle_like s user imageId now).2)
  end.

(** ** Store invariants

    What every store built by the routes satisfies: counters are not
    negative, ids come from below the counter, image ids are distinct and
    every like points at a stored image. *)
Record wf (s : Store) : Prop := mk_wf {
  wf_counts : Forall (λ d, (0 ≤ Image.likesCount d)%Z) (images s);
  wf_image_ids : Forall (λ d, Image._id d < nextId s) (images s);
  wf_image_nodup : NoDup (Image._id <$> images s);
  wf_like_ids : Forall (λ l, Like._id l < nextId s) (likes s);
  wf_refs : Forall (λ l, Like.imageId l ∈ Image._id <$> images s) (likes s)
}.

(** ** The views in the words of the data model

    The ids of the images a user uploaded, and of the stored images some like
    of the user points at. *)
Definition uploads_ids (s : Store) (user : ObjectId) : gset nat :=
  list_to_set (Image._id <$> filter (uploaded_by user) (images s)).

Definition liked_ids (s : Store) (user : ObjectId) : gset nat :=
  list_to_set
    (Image._id <$>
       filter (λ d, Exists (like_of user (Image._id d)) (likes s)) (images s)).

Definition newest_first {A} (key : A → Z) : list A → Prop :=
  StronglySorted (λ a b, (key b ≤ key a)%Z).

Definition sum_likesCount (imgs : list Image.t) : Z :=
  foldr Z.add 0%Z (Image.likesCount <$> imgs).

(** ** A small history used to exercise the statements

    Users 7 and 8 upload one image each (ids 0 and 1); 7 likes both, 8 likes
    the first. *)
Definition photo (name : string) : option UploadedFile :=
  Some (mkUploadedFile name name).

Definition example_requests : list Request :=
  [ ReqUpload 7 (photo "a.png") "" (Some "false") 100%Z;
    ReqUpload 8 (photo "b.png") "" (Some "true") 200%Z;
    ReqLike 7 0 300%Z;
    ReqLike 7 1 400%Z;
    ReqLike 8 0 500%Z ].

Definition example_store : Store := run example_requests empty_store.

Definition example_image_a : Image.t :=
  Image.mk 0 "a.png" "a.png" "/uploads/a.png" 7 "" false 2%Z 100%Z.

Definition example_image_b : Image.t :=
  Image.mk 1 "b.png" "b.png" "/uploads/b.png" 8 "" true 1%Z 200%Z.

(** ** Like records against counters

    What the routes keep beyond [wf]: Like ids are distinct, a user has at
    most one Like on an image (the unique index of models/Like.js is never
    hit), and the counter of an image is the number of Like records that
    point at it. *)
Definition like_pair (l : Like.t) : ObjectId * ObjectId :=
  (Like.userId l, Like.imageId l).

Definition likes_on (s : Store) (imageId : ObjectId) : nat :=
  countDocuments (like_on imageId) (likes s).

Record consistent (s : Store) : Prop := mk_consistent {
  cons_wf : wf s;
  cons_like_ids : NoDup (Like._id <$> likes s);
  cons_pairs : NoDup (like_pair <$> likes s);
  cons_counts :
    Forall (λ d, Image.likesCount d = Z.of_nat (likes_on s (Image._id d)))
           (images s)
}.

(** The image documents a reply carries. *)
Definition reply_docs (r : Reply PageBody) : list Image.t :=
  match r with
  | OK200 body | Created201 body => doc <$> pb_images body
  | _ => []
  end.

(** ** The file checks on both sides of an upload *)

(** routes/images.js, lines 30-37 (and the same filter in routes/ai.js):
    [allowedMimes.includes(file.mimetype)]. *)
Definition allowedMimes : list string :=
  ["image/jpeg"; "image/png"; "image/gif"; "image/webp"].

Definition fileFilter (mimetype : string) : bool :=
  bool_decide (mimetype ∈ allowedMimes).

Module ImageUploadModal.
(** components/ImageUploadModal.tsx, [handleFileSelect], lines 22-41: the
    outcome is the error shown, or the file becoming the selected one. *)
Inductive Selection :=
  | Selected
  | Refused (uploadError : string).

Definition handleFileSelect (type : string) (size : Z) : Selection :=
  if negb (String.prefix "image/" type)
  then Refused "Please select a valid image file"
  else if decide (5 * 1024 * 1024 < size)%Z
  then Refused "File size must be less than 5MB"
  else Selected.
End ImageUploadModal.

(** ** The client's image list (hooks/useImages.ts)

    The list holds the JSON objects of the last page reply; ids are the hex
    strings of the ObjectIds.  axios resolves a 2xx reply and throws on any
    other status, and on a throw the list is left as it is. *)
Module useImages.
(** [toggleLike], lines 91-112: the [setImages] update. *)
Definition toggleLike (imageId : HexString) (response : Reply LikeBody)
    (prevImages : list ImageJson) : list ImageJson :=
  match response with
  | OK200 data | Created201 data =>
      (λ img,
         if decide (toString (Image._id (doc img)) = imageId)
         then mkImageJson
                (Image.set_likesCount (or_zero (lb_likesCount data)) (doc img))
                (lb_isLiked data)
         else img) <$> prevImages
  | _ => prevImages
  end.

(** [deleteImage], lines 114-125: the [setImages] update. *)
Definition deleteImage (imageId : HexString) (response : Reply unit)
    (prevImages : list ImageJson) : list ImageJson :=
  match response with
  | OK200 _ | Created201 _ =>
      filter (λ img, toString (Image._id (doc img)) ≠ imageId) prevImages
  | _ => prevImages
  end.
End useImages.

(** ** Stepping through the viewer (components/FullscreenViewer.tsx)

    The index is a JavaScript number: [None] stands for NaN, which [%] yields
    for an empty image list and which every later step keeps. *)
Module FullscreenViewer.
(** [handleNext], lines 52-54: [(prev + 1) % images.length] *)
Definition handleNext (length : Z) (prev : option Z) : option Z :=
  match prev with
  | None => None
  | Some i => if decide (length = 0%Z) then None
              else Some (Z.rem (i + 1) length)
  end.

(** [handlePrev], lines 56-58: [(prev - 1 + images.length) % images.length] *)
Definition handlePrev (length : Z) (prev : option Z) : option Z :=
  match prev with
  | None => None
  | Some i => if decide (length = 0%Z) then None
              else Some (Z.rem (i - 1 + length) length)
  end.
End FullscreenViewer.

(** A second user's upload, for the statements about uploads: its
    description has 300 characters of two bytes each. *)
Definition accented_description : string :=
  String.concat "" (replicate 300 "é").

Definition example_upload : Store * Reply Image.t :=
  upload example_store 8 (photo "c.png") accented_description (Some "true")
         600%Z.

(** * Facts about the collection operations *)

Section CollectionFacts.
Context {A : Type} (P : A → Prop) `{!∀ d, Decision (P d)}.

Lemma findOne_Some c d : findOne P c = Some d → d ∈ c ∧ P d.
Proof.
  induction c as [|x c IH]; simpl; [done|].
  case_decide; intros Hf.
  - simplify_eq. split; [left | done].
  - destruct (IH Hf). split; [by right | done].
Qed.

Lemma findOne_None c : findOne P c = None ↔ Forall (λ d, ¬ P d) c.
Proof.
  induction c as [|x c IH]; simpl.
  - split; [constructor | done].
  - case_decide.
    + split; [done|]. by inversion 1.
    + rewrite IH. split; [by constructor | by inversion 1].
Qed.

Lemma findOne_app_None c d :
  findOne P c = None → P d → findOne P (c ++ [d]) = Some d.
Proof.
  induction c as [|x c IH]; simpl; intros Hn Hd.
  - by rewrite decide_True.
  - case_decide; [done|]. by apply IH.
Qed.

Lemma deleteOne_subseteq c : deleteOne P c ⊆ c.
Proof.
  induction c as [|x c IH]; simpl; [done|].
  case_decide; [by apply list_subseteq_cons|].
  intros y [->|Hy]%elem_of_cons; [left | right; by apply IH].
Qed.

Lemma deleteOne_keeps c d : d ∈ c → ¬ P d → d ∈ deleteOne P c.
Proof.
  induction c as [|x c IH]; simpl; [done|].
  intros [->|Hin]%elem_of_cons Hd.
  - rewrite decide_False; [left | done].
  - case_decide; [done|]. right. by apply IH.
Qed.

Lemma deleteOne_app_last c d :
  Forall (λ x, ¬ P x) c → P d → deleteOne P (c ++ [d]) = c.
Proof.
  induction 1 as [|x c Hx _ IH]; simpl; intros Hd.
  - by rewrite decide_True.
  - rewrite decide_False; [|done]. by rewrite IH.
Qed.

Lemma Forall_deleteOne (Q : A → Prop) c : Forall Q c → Forall Q (deleteOne P c).
Proof.
  rewrite !Forall_forall. intros HQ x Hx. apply HQ. by apply deleteOne_subseteq.
Qed.

Lemma Forall_replaceOne (Q : A → Prop) d' c :
  Forall Q c → Q d' → Forall Q (replaceOne P d' c).
Proof.
  induction 1 as [|x c Hx Hc IH]; simpl; intros Hd; [constructor|].
  case_decide; constructor; auto.
Qed.

Lemma replaceOne_fmap {B} (f : A → B) d' c :
  (∀ d, P d → f d = f d') → f <$> replaceOne P d' c = f <$> c.
Proof.
  intros Hf. induction c as [|x c IH]; simpl; [done|].
  case_decide; csimpl; f_equal; [symmetry; by apply Hf | done].
Qed.

Lemma findOne_replaceOne d d' c :
  findOne P c = Some d → P d' → findOne P (replaceOne P d' c) = Some d'.
Proof.
  induction c as [|x c IH]; simpl; [done|].
  case_decide; simpl; intros Hf Hd.
  - by rewrite decide_True.
  - rewrite decide_False; [|done]. by apply IH.
Qed.

Lemma replaceOne_undo d d' c :
  findOne P c = Some d → P d' → replaceOne P d (replaceOne P d' c) = c.
Proof.
  induction c as [|x c IH]; simpl; [done|].
  case_decide; simpl; intros Hf Hd.
  - rewrite decide_True; [|done]. by simplify_eq.
  - rewrite decide_False; [|done]. by rewrite IH.
Qed.

End CollectionFacts.

Lemma set_likesCount_undo c d :
  Image.set_likesCount (Image.likesCount d) (Image.set_likesCount c d) = d.
Proof. by destruct d. Qed.

(** * The like toggle *)

Section Toggle.
Context (s : Store) (user imageId : ObjectId) (now : Z) (image : Image.t).
Hypothesis Himage : findOne (has_id imageId) (images s) = Some image.

Lemma found_image_id : Image._id image = imageId.
Proof. by destruct (findOne_Some _ _ _ Himage). Qed.

(** The like branch, lines 278-292. *)
Lemma toggle_like_fresh :
  findOne (like_of user imageId) (likes s) = None →
  toggle_like s user imageId now =
    (mkStore
       (replaceOne (has_id imageId)
          (Image.set_likesCount (Image.likesCount image + 1) image) (images s))
       (likes s ++ [Like.mk (nextId s) user imageId now])
       (S (nextId s)),
     OK200 (mkLikeBody "Image liked" true (Image.likesCount image + 1))).
Proof.
  intros Hnone. unfold toggle_like. rewrite Himage, Hnone. simpl.
  by rewrite found_image_id.
Qed.

(** The unlike branch, lines 265-276. *)
Lemma toggle_like_existing existingLike :
  findOne (like_of user imageId) (likes s) = Some existingLike →
  toggle_like s user imageId now =
    (mkStore
       (replaceOne (has_id imageId)
          (Image.set_likesCount (Z.max 0 (Image.likesCount image - 1)) image)
          (images s))
       (deleteOne (like_has_id (Like._id existingLike)) (likes s))
       (nextId s),
     OK200 (mkLikeBody "Image unliked" false
              (Z.max 0 (Image.likesCount image - 1)))).
Proof.
  intros Hsome. unfold toggle_like. rewrite Himage, Hsome. simpl.
  by rewrite found_image_id.
Qed.
End Toggle.

Lemma toggle_like_missing s user imageId now :
  findOne (has_id imageId) (images s) = None →
  toggle_like s user imageId now = (s, NotFound404).
Proof. intros H. unfold toggle_like. by rewrite H. Qed.

(** Like then unlike: the two collections are back where they were. *)
Lemma toggle_like_twice s user imageId t1 t2 image :
  Forall (λ l, Like._id l < nextId s) (likes s) →
  findOne (has_id imageId) (images s) = Some image →
  (0 ≤ Image.likesCount image)%Z →
  findOne (like_of user imageId) (likes s) = None →
  toggle_like (toggle_like s user imageId t1).1 user imageId t2 =
    (mkStore (images s) (likes s) (S (nextId s)),
     OK200 (mkLikeBody "Image unliked" false (Image.likesCount image))).
Proof.
  intros Hids Himg Hc Hnone.
  rewrite (toggle_like_fresh _ _ _ _ _ Himg Hnone). simpl.
  pose proof (found_image_id _ _ _ Himg) as Hid.
  set (image' := Image.set_likesCount (Image.likesCount image + 1) image).
  set (like := Like.mk (nextId s) user imageId t1).
  assert (findOne (has_id imageId)
            (replaceOne (has_id imageId) image' (images s)) = Some image') as Himg'.
  { apply (findOne_replaceOne _ image); [done|]. exact Hid. }
  assert (findOne (like_of user imageId) (likes s ++ [like]) = Some like) as Hlike.
  { by apply findOne_app_None. }
  rewrite (toggle_like_existing
             (mkStore (replaceOne (has_id imageId) image' (images s))
                      (likes s ++ [like]) (S (nextId s)))
             user imageId t2 image' Himg' like Hlike).
  simpl.
  replace (Z.max 0 (Image.likesCount image + 1 - 1)) with (Image.likesCount image)
    by lia.
  unfold image' at 1. rewrite set_likesCount_undo.
  rewrite (replaceOne_undo _ image image') by done.
  rewrite deleteOne_app_last; [done| |done].
  eapply Forall_impl; [exact Hids|]. unfold like_has_id. simpl. lia.
Qed.

Lemma toggle_many_even user imageId image :
  (0 ≤ Image.likesCount image)%Z →
  ∀ k times s last,
    length times = 2 * k →
    Forall (λ l, Like._id l < nextId s) (likes s) →
    findOne (has_id imageId) (images s) = Some image →
    findOne (like_of user imageId) (likes s) = None →
    images (toggle_many s user imageId times last).1 = images s ∧
    likes (toggle_many s user imageId times last).1 = likes s ∧
    (toggle_many s user imageId times last).2 =
      match times with
      | [] => last
      | _ => Some (OK200 (mkLikeBody "Image unliked" false
                            (Image.likesCount image)))
      end.
Proof.
  intros Hc. induction k as [|k IH]; intros times s last Hlen Hids Himg Hnone.
  - destruct times; [done | discriminate].
  - destruct times as [|t1 [|t2 times]]; simpl in Hlen; try lia.
    simpl.
    rewrite (toggle_like_twice s user imageId t1 t2 image) by done.
    simpl.
    destruct (IH times (mkStore (images s) (likes s) (S (nextId s)))
                (Some (OK200 (mkLikeBody "Image unliked" false
                                (Image.likesCount image))))) as (Hi & Hl & Hr);
      simpl; try done; try lia.
    { eapply Forall_impl; [exact Hids|]. simpl. lia. }
    split_and!; [done | done |].
    rewrite Hr. by destruct times.
Qed.

(** * The invariants hold on every store the routes build *)

Lemma deleteOne_sublist {A} (P : A → Prop) `{!∀ d, Decision (P d)} c :
  deleteOne P c `sublist_of` c.
Proof.
  induction c as [|x c IH]; simpl; [done|].
  case_decide; [by apply sublist_cons | by apply sublist_skip].
Qed.

Lemma Forall_filter_keep {A} (P Q : A → Prop) `{!∀ d, Decision (P d)} c :
  Forall Q c → Forall Q (filter P c).
Proof.
  rewrite !Forall_forall. intros HQ x [_ Hx]%list_elem_of_filter. by apply HQ.
Qed.

Lemma wf_empty : wf empty_store.
Proof. split; simpl; constructor. Qed.

(** An upload leaves the store alone or appends one image of a fresh id
    with the counter at zero. *)
Lemma upload_store s user file description isPublic now :
  (upload s user file description isPublic now).1 = s ∨
  ∃ image,
    (upload s user file description isPublic now).1 =
      mkStore (images s ++ [image]) (likes s) (S (nextId s)) ∧
    Image._id image = nextId s ∧
    Image.likesCount image = 0%Z.
Proof.
  unfold upload. destruct file as [f|]; [|by left].
  destruct (decide (500 < isLength_len description)); [by left|].
  destruct (decide (¬ isPublic_passes isPublic)); [by left|].
  destruct (decide (500 < js_length description)); [by left|].
  destruct (decide (uf_filename f ∈ Image.filename <$> images s)); [by left|].
  right. by eexists.
Qed.

Lemma wf_upload s user file description isPublic now :
  wf s → wf (upload s user file description isPublic now).1.
Proof.
  intros Hs. pose proof Hs as [Hc Hi Hn Hl Hr].
  destruct (upload_store s user file description isPublic now)
    as [->|(image & -> & Hid & Hzero)]; [done|].
  split; simpl.
  - apply Forall_app. split; [done|].
    constructor; [lia | constructor].
  - apply Forall_app. split.
    + eapply Forall_impl; [exact Hi|]. simpl. lia.
    + constructor; [lia | constructor].
  - rewrite fmap_app. apply NoDup_app. split_and!; [done| |].
    + intros x Hx Hx'. simpl in Hx'. apply list_elem_of_singleton in Hx'.
      apply list_elem_of_fmap in Hx as (d & -> & Hd).
      rewrite Forall_forall in Hi. specialize (Hi d Hd). lia.
    + simpl. apply NoDup_singleton.
  - eapply Forall_impl; [exact Hl|]. simpl. lia.
  - eapply Forall_impl; [exact Hr|]. simpl. intros l Hin.
    rewrite fmap_app. apply elem_of_app. by left.
Qed.

Lemma wf_toggle_like s user imageId now :
  wf s → wf (toggle_like s user imageId now).1.
Proof.
  intros Hs. pose proof Hs as [Hc Hi Hn Hl Hr].
  destruct (findOne (has_id imageId) (images s)) as [image|] eqn:Himg;
    [|by rewrite toggle_like_missing].
  destruct (findOne_Some _ _ _ Himg) as [Hin Hid].
  assert (∀ c, Image._id <$> replaceOne (has_id imageId)
                 (Image.set_likesCount c image) (images s)
               = Image._id <$> images s) as Hids.
  { intros c. apply replaceOne_fmap. intros d Hd. simpl.
    unfold has_id in *. congruence. }
  rewrite Forall_forall in Hc. pose proof (Hc _ Hin) as Hc0.
  rewrite <- Forall_forall in Hc.
  destruct (findOne (like_of user imageId) (likes s)) as [existing|] eqn:Hlike.
  - rewrite (toggle_like_existing _ _ _ _ _ Himg _ Hlike). split; simpl.
    + apply Forall_replaceOne; [done|]. simpl. lia.
    + apply Forall_replaceOne; [done|]. simpl.
      rewrite Forall_forall in Hi. by apply Hi.
    + by rewrite Hids.
    + by apply Forall_deleteOne.
    + rewrite Hids. by apply Forall_deleteOne.
  - rewrite (toggle_like_fresh _ _ _ _ _ Himg Hlike). split; simpl.
    + apply Forall_replaceOne; [done|]. simpl. lia.
    + apply Forall_replaceOne.
      * eapply Forall_impl; [exact Hi|]. simpl. lia.
      * simpl. rewrite Forall_forall in Hi. specialize (Hi _ Hin). lia.
    + by rewrite Hids.
    + apply Forall_app. split.
      * eapply Forall_impl; [exact Hl|]. simpl. lia.
      * constructor; [simpl; lia | constructor].
    + rewrite Hids. apply Forall_app. split; [done|].
      constructor; [|constructor]. simpl. apply list_elem_of_fmap.
      exists image. by split.
Qed.

Lemma wf_delete_image s user imageId :
  wf s → wf (delete_image s user imageId).1.
Proof.
  intros Hs. pose proof Hs as [Hc Hi Hn Hl Hr]. unfold delete_image.
  destruct (findOne (has_id imageId) (images s)) as [image|]; [|done].
  case_decide; [done|]. split; simpl.
  - by apply Forall_deleteOne.
  - by apply Forall_deleteOne.
  - eapply sublist_NoDup; [exact Hn|].
    apply fmap_sublist, deleteOne_sublist.
  - unfold deleteMany. by apply Forall_filter_keep.
  - unfold deleteMany. apply Forall_forall. intros l Hlin.
    apply list_elem_of_filter in Hlin as [Hne Hlin].
    rewrite Forall_forall in Hr.
    apply Hr in Hlin. apply list_elem_of_fmap in Hlin as (d & Hd & Hdin).
    apply list_elem_of_fmap. exists d. split; [done|].
    apply deleteOne_keeps; [done|]. unfold has_id, like_on in *. congruence.
Qed.

Lemma wf_step s r : wf s → wf (step s r).
Proof.
  destruct r; simpl; auto using wf_upload, wf_toggle_like, wf_delete_image.
Qed.

Lemma wf_run reqs : ∀ s, wf s → wf (run reqs s).
Proof.
  induction reqs as [|r reqs IH]; intros s Hs; [done|].
  simpl. apply IH. by apply wf_step.
Qed.

Lemma wf_reachable reqs : wf (run reqs empty_store).
Proof. apply wf_run, wf_empty. Qed.

Lemma findOne_replaceOne_other i j d' c :
  i ≠ j → Image._id d' = i →
  findOne (has_id j) (replaceOne (has_id i) d' c) = findOne (has_id j) c.
Proof.
  intros Hij Hd'. induction c as [|x c IH]; simpl; [done|].
  unfold has_id in *. destruct (decide (Image._id x = i)) as [Hx|Hx]; simpl.
  - rewrite !decide_False by congruence. done.
  - by rewrite IH.
Qed.

Lemma countDocuments_app {A} (P : A → Prop) `{!∀ d, Decision (P d)} c c' :
  countDocuments P (c ++ c') = countDocuments P c + countDocuments P c'.
Proof. unfold countDocuments. by rewrite filter_app, length_app. Qed.

Lemma countDocuments_none {A} (P : A → Prop) `{!∀ d, Decision (P d)} c :
  Forall (λ d, ¬ P d) c → countDocuments P c = 0.
Proof.
  unfold countDocuments. induction 1 as [|x c Hx _ IH]; [done|].
  by rewrite filter_cons_False.
Qed.

(** * Claims about the like toggle *)

(** C2. When the image exists and the user has no like on it, one toggle
    appends exactly one Like record for the pair, stores the image with its
    counter raised by exactly one, leaves every other image as it was, and
    answers [isLiked = true] with the new counter. *)
Theorem toggle_like_creates_like (s : Store) (user imageId : ObjectId)
    (now : Z) (image : Image.t) :
  findOne (has_id imageId) (images s) = Some image →
  Forall (λ l, ¬ like_of user imageId l) (likes s) →
  (toggle_like s user imageId now).2 =
    OK200 (mkLikeBody "Image liked" true (Image.likesCount image + 1)) ∧
  likes (toggle_like s user imageId now).1 =
    likes s ++ [Like.mk (nextId s) user imageId now] ∧
  countDocuments (like_of user imageId) (likes (toggle_like s user imageId now).1)
    = 1 ∧
  findOne (has_id imageId) (images (toggle_like s user imageId now).1) =
    Some (Image.set_likesCount (Image.likesCount image + 1) image) ∧
  ∀ other, other ≠ imageId →
    findOne (has_id other) (images (toggle_like s user imageId now).1) =
    findOne (has_id other) (images s).
Proof.
  intros Himg Hnone.
  rewrite (toggle_like_fresh _ _ _ _ _ Himg) by by apply findOne_None.
  simpl. split_and!; try done.
  - rewrite countDocuments_app, countDocuments_none by done.
    unfold countDocuments. by rewrite filter_cons_True by (by split).
  - apply (findOne_replaceOne _ image); [done|].
    by destruct (findOne_Some _ _ _ Himg).
  - intros other Hne. apply findOne_replaceOne_other; [done|].
    by destruct (findOne_Some _ _ _ Himg).
Qed.

Lemma toggle_like_creates_like_witness :
  (toggle_like example_store 8 1 600%Z).2 =
    OK200 (mkLikeBody "Image liked" true 2%Z).
Proof.
  refine (proj1 (toggle_like_creates_like example_store 8 1 600%Z
                   example_image_b _ _)).
  - reflexivity.
  - vm_compute. repeat constructor; intros [? ?]; discriminate.
Defined.

(** C1. On any store the routes have built, if the user has no like on an
    existing image, then an even, non-zero number of toggles by that user on
    that image ends with the reply [isLiked = false] carrying the counter the
    image had before the run, and the image and the Like collection are
    stored as they were. *)
Theorem toggle_even_restores (reqs : list Request) (user imageId : ObjectId)
    (image : Image.t) (times : list Z) :
  let s := run reqs empty_store in
  findOne (has_id imageId) (images s) = Some image →
  Forall (λ l, ¬ like_of user imageId l) (likes s) →
  Nat.Even (length times) →
  times ≠ [] →
  (toggle_many s user imageId times None).2 =
    Some (OK200 (mkLikeBody "Image unliked" false (Image.likesCount image))) ∧
  findOne (has_id imageId)
    (images (toggle_many s user imageId times None).1) = Some image ∧
  likes (toggle_many s user imageId times None).1 = likes s.
Proof.
  intros s Himg Hnone [k Hk] Hne.
  destruct (wf_reachable reqs) as [Hc _ _ Hl _]. fold s in Hc, Hl.
  assert (0 ≤ Image.likesCount image)%Z as Hc0.
  { rewrite Forall_forall in Hc. apply Hc.
    by destruct (findOne_Some _ _ _ Himg). }
  destruct (toggle_many_even user imageId image Hc0 k times s None)
    as (Hi & Hlk & Hr); try done.
  { by apply findOne_None. }
  rewrite Hi, Hlk, Hr. by destruct times.
Qed.

Lemma toggle_even_restores_witness :
  (toggle_many example_store 8 1 [600; 700; 800; 900]%Z None).2 =
    Some (OK200 (mkLikeBody "Image unliked" false 1%Z)).
Proof.
  refine (proj1 (toggle_even_restores example_requests 8 1 example_image_b
                   [600; 700; 800; 900]%Z _ _ _ _)).
  - reflexivity.
  - vm_compute. repeat constructor; intros [? ?]; discriminate.
  - by exists 2.
  - discriminate.
Defined.

Lemma counts_step s r :
  Forall (λ d, (0 ≤ Image.likesCount d)%Z) (images s) →
  Forall (λ d, (0 ≤ Image.likesCount d)%Z) (images (step s r)).
Proof.
  intros Hc. destruct r as [user file description isPublic now
                           | user imageId now | user imageId]; simpl.
  - destruct (upload_store s user file description isPublic now)
      as [->|(image & -> & _ & Hzero)]; [done|].
    simpl. apply Forall_app. split; [done|].
    constructor; [lia | constructor].
  - destruct (findOne (has_id imageId) (images s)) as [image|] eqn:Himg;
      [|by rewrite toggle_like_missing].
    assert (0 ≤ Image.likesCount image)%Z as Hc0.
    { rewrite Forall_forall in Hc. apply Hc.
      by destruct (findOne_Some _ _ _ Himg). }
    destruct (findOne (like_of user imageId) (likes s)) as [l|] eqn:Hl.
    + rewrite (toggle_like_existing _ _ _ _ _ Himg _ Hl). simpl.
      apply Forall_replaceOne; [done|]. simpl. lia.
    + rewrite (toggle_like_fresh _ _ _ _ _ Himg Hl). simpl.
      apply Forall_replaceOne; [done|]. simpl. lia.
  - unfold delete_image.
    destruct (findOne (has_id imageId) (images s)); [|done].
    case_decide; [done|]. simpl. by apply Forall_deleteOne.
Qed.

(** C3. If no stored counter is negative, then after any sequence of
    requests (toggles by any users on any images, and uploads and deletions
    among them) no stored counter is negative; and an unlike on the store so
    reached answers with the counter lowered by one and floored at zero. *)
Theorem likesCount_never_negative (reqs : list Request) (s : Store) :
  Forall (λ d, (0 ≤ Image.likesCount d)%Z) (images s) →
  Forall (λ d, (0 ≤ Image.likesCount d)%Z) (images (run reqs s)) ∧
  ∀ user imageId now image existingLike,
    findOne (has_id imageId) (images (run reqs s)) = Some image →
    findOne (like_of user imageId) (likes (run reqs s)) = Some existingLike →
    (toggle_like (run reqs s) user imageId now).2 =
      OK200 (mkLikeBody "Image unliked" false
               (Z.max 0 (Image.likesCount image - 1))).
Proof.
  intros Hs. split.
  - revert s Hs. induction reqs as [|r reqs IH]; intros s Hs; [done|].
    simpl. apply IH. by apply counts_step.
  - intros user imageId now image existingLike Himg Hlike.
    by rewrite (toggle_like_existing _ _ _ _ _ Himg _ Hlike).
Qed.

Lemma likesCount_never_negative_witness :
  Forall (λ d, (0 ≤ Image.likesCount d)%Z)
    (images (run [ReqLike 8 0 600%Z; ReqLike 8 0 700%Z; ReqLike 9 1 800%Z]
               example_store)).
Proof.
  refine (proj1 (likesCount_never_negative
                   [ReqLike 8 0 600%Z; ReqLike 8 0 700%Z; ReqLike 9 1 800%Z]
                   example_store _)).
  vm_compute. repeat constructor; discriminate.
Defined.

(** The walk-through of the specification: A (7) uploads X with counter 0;
    B (8) likes X and reads [isLiked: true, likesCount: 1]; A's stats read 1
    while the like exists; B unlikes X and reads [isLiked: false,
    likesCount: 0]. *)
Example like_unlike_walkthrough :
  let s0 := (upload empty_store 7 (photo "x.png") "" None 100%Z).1 in
  let s1 := (toggle_like s0 8 0 200%Z).1 in
  (toggle_like s0 8 0 200%Z).2 = OK200 (mkLikeBody "Image liked" true 1%Z) ∧
  get_stats s1 7 = OK200 1%Z ∧
  (toggle_like s1 8 0 300%Z).2 = OK200 (mkLikeBody "Image unliked" false 0%Z) ∧
  get_stats (toggle_like s1 8 0 300%Z).1 7 = OK200 0%Z.
Proof. by split_and!. Qed.

(** * Claims about deletion *)

(** C8. When the image exists and the requester is not its uploader, the
    delete route answers 403 and the store after the request is the store
    before it. *)
Theorem delete_image_forbidden (s : Store) (user imageId : ObjectId)
    (image : Image.t) :
  findOne (has_id imageId) (images s) = Some image →
  Image.uploadedBy image ≠ user →
  delete_image s user imageId = (s, Forbidden403).
Proof.
  intros Himg Hne. unfold delete_image. rewrite Himg.
  rewrite decide_True; [done|]. unfold toString. congruence.
Qed.

Lemma delete_image_forbidden_witness :
  delete_image example_store 8 0 = (example_store, Forbidden403).
Proof.
  apply (delete_image_forbidden example_store 8 0 example_image_a).
  - reflexivity.
  - discriminate.
Defined.

(** * Sorting and paging *)

Section SortFacts.
Context {A : Type} (key : A → Z).

Lemma insert_desc_perm x l : insert_desc key x l ≡ₚ x :: l.
Proof.
  induction l as [|y l IH]; simpl; [done|].
  case_decide; [|done]. rewrite IH. apply Permutation_swap.
Qed.

Lemma sort_desc_perm l : sort_desc key l ≡ₚ l.
Proof.
  induction l as [|x l IH]; simpl; [done|].
  by rewrite insert_desc_perm, IH.
Qed.

Lemma insert_desc_sorted x l :
  newest_first key l → newest_first key (insert_desc key x l).
Proof.
  unfold newest_first. induction 1 as [|y l Hl IH Hy]; simpl.
  - by repeat constructor.
  - case_decide.
    + constructor; [done|].
      rewrite insert_desc_perm. constructor; [lia | done].
    + constructor; [by constructor|].
      constructor; [lia|]. eapply Forall_impl; [exact Hy|]. simpl. lia.
Qed.

Lemma sort_desc_sorted l : newest_first key (sort_desc key l).
Proof.
  induction l as [|x l IH]; simpl; [constructor|].
  by apply insert_desc_sorted.
Qed.

Lemma elem_of_sort_desc x l : x ∈ sort_desc key l ↔ x ∈ l.
Proof. by rewrite sort_desc_perm. Qed.

Lemma newest_first_sublist l k :
  k `sublist_of` l → newest_first key l → newest_first key k.
Proof.
  unfold newest_first. intros Hsub Hl. revert k Hsub.
  induction Hl as [|x l Hl IH Hx]; intros k Hsub.
  - apply sublist_nil_r in Hsub as ->. constructor.
  - apply sublist_cons_r in Hsub as [Hsub|(k' & -> & Hsub)]; [by apply IH|].
    constructor; [by apply IH|].
    rewrite Forall_forall in Hx. apply Forall_forall. intros y Hy.
    apply Hx. by eapply elem_of_sublist.
Qed.
End SortFacts.

Lemma mongo_skip_Some {A} (n : Z) (c : list A) :
  (0 ≤ n)%Z → mongo_skip n c = Some (drop (Z.to_nat n) c).
Proof. intros Hn. unfold mongo_skip. by rewrite decide_False by lia. Qed.

Lemma mongo_skip_sublist {A} (n : Z) (c c' : list A) :
  mongo_skip n c = Some c' → c' `sublist_of` c.
Proof.
  unfold mongo_skip. case_decide; [done|]. intros [= <-]. apply sublist_drop.
Qed.

Lemma mongo_limit_sublist {A} (n : Z) (c : list A) :
  mongo_limit n c `sublist_of` c.
Proof. unfold mongo_limit. case_decide; [done|]. apply sublist_take. Qed.

Lemma mongo_limit_pos {A} (n : Z) (c : list A) :
  (0 < n)%Z → mongo_limit n c = take (Z.to_nat n) c.
Proof.
  intros Hn. unfold mongo_limit. rewrite decide_False by lia.
  by rewrite Z.abs_eq by lia.
Qed.

Lemma slice_sublist {A} (l : list A) (start stop : Z) :
  slice l start stop `sublist_of` l.
Proof.
  unfold slice. etrans; [apply sublist_take | apply sublist_drop].
Qed.

(** A page of a positive size, counted from page one, is the plain window
    of the list. *)
Lemma slice_page {A} (l : list A) (page limit : Z) :
  (1 ≤ page)%Z → (0 < limit)%Z →
  slice l ((page - 1) * limit) ((page - 1) * limit + limit) =
  take (Z.to_nat limit) (drop (Z.to_nat ((page - 1) * limit)) l).
Proof.
  intros Hp Hl. unfold slice, relative_index.
  assert (0 ≤ (page - 1) * limit)%Z as Hskip by nia.
  rewrite !decide_False by lia.
  destruct (decide (Z.to_nat ((page - 1) * limit) ≤ length l)) as [Hle|Hgt].
  - rewrite (Z.min_l ((page - 1) * limit)) by lia.
    destruct (decide ((page - 1) * limit + limit ≤ Z.of_nat (length l))%Z).
    + rewrite Z.min_l by lia. f_equal. lia.
    + rewrite Z.min_r by lia. rewrite Nat2Z.id.
      rewrite !take_ge; [done | | ]; rewrite length_drop; lia.
  - rewrite !Z.min_r by lia. rewrite Nat2Z.id, Nat.sub_diag.
    rewrite (drop_ge l (Z.to_nat _)) by lia. by rewrite take_0, take_nil.
Qed.

Lemma ceil_div_spec (a b : Z) :
  (0 < b)%Z → ((ceil_div a b - 1) * b < a ≤ ceil_div a b * b)%Z.
Proof.
  intros Hb. unfold ceil_div.
  pose proof (Z.div_mod (- a) b) as Hdm.
  pose proof (Z.mod_pos_bound (- a) b Hb). nia.
Qed.

(** * The liked view *)

Lemma imageMap_fold_lookup imgs : ∀ (m : gmap HexString Image.t) k img,
  foldl (λ m d, <[toString (Image._id d) := d]> m) m imgs !! k = Some img →
  m !! k = Some img ∨ (img ∈ imgs ∧ toString (Image._id img) = k).
Proof.
  induction imgs as [|d imgs IH]; intros m k img; simpl; [by left|].
  intros Hk. apply IH in Hk as [Hk|[Hin Hid]].
  - destruct (decide (toString (Image._id d) = k)) as [<-|Hne].
    + rewrite lookup_insert_eq in Hk. simplify_eq. right. split; [left|done].
    + rewrite lookup_insert_ne in Hk by done. by left.
  - right. split; [by right | done].
Qed.

Lemma imageMap_fold_is_Some imgs : ∀ (m : gmap HexString Image.t) k,
  is_Some (m !! k) ∨ (∃ d, d ∈ imgs ∧ toString (Image._id d) = k) →
  is_Some (foldl (λ m d, <[toString (Image._id d) := d]> m) m imgs !! k).
Proof.
  induction imgs as [|d imgs IH]; intros m k; simpl.
  - intros [Hm|(d & Hd & _)]; [done|]. by apply elem_of_nil in Hd.
  - intros Hk. apply IH.
    destruct (decide (toString (Image._id d) = k)) as [<-|Hne].
    + left. rewrite lookup_insert_eq. by eexists.
    + rewrite lookup_insert_ne by done.
      destruct Hk as [Hm|(d' & Hd' & Hid)]; [by left|].
      apply elem_of_cons in Hd' as [->|Hd']; [done|]. right. by exists d'.
Qed.

Lemma build_imageMap_lookup imgs k img :
  build_imageMap imgs !! k = Some img →
  img ∈ imgs ∧ toString (Image._id img) = k.
Proof.
  intros Hk. apply imageMap_fold_lookup in Hk as [Hk|Hk]; [|done].
  by rewrite lookup_empty in Hk.
Qed.

Lemma build_imageMap_is_Some imgs d :
  d ∈ imgs → is_Some (build_imageMap imgs !! toString (Image._id d)).
Proof. intros Hd. apply imageMap_fold_is_Some. right. by exists d. Qed.

Lemma omap_fmap_inverse {A B} (f : A → option B) (g : B → A) (l : list A) :
  Forall (λ x, ∃ y, f x = Some y ∧ g y = x) l → g <$> omap f l = l.
Proof.
  induction 1 as [|x l (y & Hy & Hg) _ IH]; [done|].
  simpl. rewrite Hy. csimpl. by f_equal.
Qed.

Lemma liked_page_sublist s user page limit likes_page :
  liked_page s user page limit = Some likes_page →
  likes_page `sublist_of`
    sort_desc Like.createdAt (filter (liked_by user) (likes s)).
Proof.
  unfold liked_page. intros Hp.
  apply fmap_Some in Hp as (skipped & Hskip & ->).
  etrans; [apply mongo_limit_sublist | by eapply mongo_skip_sublist].
Qed.

Lemma liked_page_likes s user page limit likes_page l :
  liked_page s user page limit = Some likes_page →
  l ∈ likes_page → l ∈ likes s ∧ liked_by user l.
Proof.
  intros Hp Hl.
  eapply elem_of_sublist in Hl; [|by eapply liked_page_sublist].
  apply elem_of_sort_desc, list_elem_of_filter in Hl. tauto.
Qed.

(** Every entry of the liked view is a stored image some like of the
    requester points at, and it is marked liked. *)
Lemma get_liked_entries s user page limit body j :
  get_liked s user page limit = OK200 body →
  j ∈ pb_images body →
  isLiked j = true ∧ doc j ∈ images s ∧
  ∃ l, l ∈ likes s ∧ liked_by user l ∧ Like.imageId l = Image._id (doc j).
Proof.
  unfold get_liked.
  destruct (liked_page s user page limit) as [likes_page|] eqn:Hp; [|done].
  intros [= <-]. simpl. intros Hj.
  apply list_elem_of_fmap in Hj as (img & -> & Himg). simpl.
  apply list_elem_of_omap in Himg as (id & Hid & Hlook).
  apply build_imageMap_lookup in Hlook as [Hin Hstr].
  apply list_elem_of_filter in Hin as [_ Hin].
  apply list_elem_of_fmap in Hid as (l & -> & Hl).
  destruct (liked_page_likes _ _ _ _ _ _ Hp Hl) as [Hls Hby].
  split_and!; [done | done |]. exists l. split_and!; [done | done |].
  by injection Hstr.
Qed.

Lemma get_liked_ok s user page limit :
  (0 ≤ (page - 1) * limit)%Z → ∃ body, get_liked s user page limit = OK200 body.
Proof.
  intros Hskip. unfold get_liked, liked_page.
  rewrite mongo_skip_Some by done. simpl. by eexists.
Qed.

(** C9. When the uploader deletes an image, the route answers 200, no Like
    record of the store points at the image any more, and no page of the
    liked view of any user lists it; the liked view still answers. *)
Theorem delete_image_cascades (s : Store) (user imageId : ObjectId)
    (image : Image.t) :
  findOne (has_id imageId) (images s) = Some image →
  Image.uploadedBy image = user →
  (delete_image s user imageId).2 = OK200 () ∧
  Forall (λ l, Like.imageId l ≠ imageId)
         (likes (delete_image s user imageId).1) ∧
  (∀ liker page limit body,
     get_liked (delete_image s user imageId).1 liker page limit = OK200 body →
     imageId ∉ (Image._id ∘ doc) <$> pb_images body) ∧
  (∀ liker page limit, (1 ≤ page)%Z → (0 ≤ limit)%Z →
     ∃ body,
       get_liked (delete_image s user imageId).1 liker page limit = OK200 body).
Proof.
  intros Himg Hby. unfold delete_image. rewrite Himg.
  rewrite decide_False by (intros Hne; apply Hne; by rewrite Hby).
  simpl.
  assert (Forall (λ l, Like.imageId l ≠ imageId)
            (deleteMany (like_on imageId) (likes s))) as Hgone.
  { apply Forall_forall. intros l Hl. unfold deleteMany in Hl.
    by apply list_elem_of_filter in Hl as [Hne _]. }
  split_and!; [done | done | |].
  - intros liker page limit body Hget Hin.
    apply list_elem_of_fmap in Hin as (j & Hid & Hj).
    destruct (get_liked_entries _ _ _ _ _ _ Hget Hj)
      as (_ & _ & l & Hl & _ & Hlid).
    simpl in Hl. rewrite Forall_forall in Hgone.
    apply (Hgone l Hl). simpl in Hid. congruence.
  - intros liker page limit Hp Hl. apply get_liked_ok. nia.
Qed.

Lemma delete_image_cascades_witness :
  (delete_image example_store 7 0).2 = OK200 () ∧
  Forall (λ l, Like.imageId l ≠ 0) (likes (delete_image example_store 7 0).1).
Proof.
  refine (let H := delete_image_cascades example_store 7 0 example_image_a _ _
          in conj (proj1 H) (proj1 (proj2 H))); reflexivity.
Defined.

(** C7. On any store the routes have built, page [page >= 1] of size
    [limit > 0] of the liked view answers 200 with: the ids of the images, in
    order, equal to the image ids of that window of the requester's Like
    records arranged newest like first; every entry marked liked and equal to
    a stored image; and the total equal to the number of the requester's
    likes. *)
Theorem liked_view_by_like_time (reqs : list Request) (user : ObjectId)
    (page limit : Z) :
  let s := run reqs empty_store in
  (1 ≤ page)%Z →
  (0 < limit)%Z →
  ∃ body sorted,
    get_liked s user page limit = OK200 body ∧
    sorted ≡ₚ filter (liked_by user) (likes s) ∧
    newest_first Like.createdAt sorted ∧
    (Image._id ∘ doc) <$> pb_images body =
      Like.imageId <$>
        take (Z.to_nat limit) (drop (Z.to_nat ((page - 1) * limit)) sorted) ∧
    Forall (λ j, isLiked j = true ∧ doc j ∈ images s) (pb_images body) ∧
    pb_total body = length sorted ∧
    pb_page body = page.
Proof.
  intros s Hp Hl.
  assert (0 ≤ (page - 1) * limit)%Z as Hskip by nia.
  destruct (get_liked_ok s user page limit Hskip) as [body Hget].
  exists body, (sort_desc Like.createdAt (filter (liked_by user) (likes s))).
  split_and!; [done | apply sort_desc_perm | apply sort_desc_sorted | | | |].
  - revert Hget. unfold get_liked.
    destruct (liked_page s user page limit) as [likes_page|] eqn:Hpage; [|done].
    intros [= <-]. simpl.
    pose proof Hpage as Hpage'. unfold liked_page in Hpage'.
    rewrite mongo_skip_Some in Hpage' by done. simpl in Hpage'.
    rewrite mongo_limit_pos in Hpage' by done. injection Hpage' as Hpage'.
    rewrite Hpage'. rewrite <- list_fmap_compose.
    change ((Image._id ∘ doc) ∘ (λ img, mkImageJson img true))
      with Image._id.
    apply omap_fmap_inverse. apply Forall_forall. intros id Hid.
    apply list_elem_of_fmap in Hid as (l & -> & Hlin).
    destruct (liked_page_likes _ _ _ _ _ _ Hpage Hlin) as [Hls _].
    destruct (wf_reachable reqs) as [_ _ _ _ Hrefs]. fold s in Hrefs.
    rewrite Forall_forall in Hrefs.
    destruct (proj1 (list_elem_of_fmap _ _ _) (Hrefs l Hls)) as (d & Hd & Hdin).
    assert (d ∈ filter (λ d, Image._id d ∈ Like.imageId <$> likes_page)
                       (images s)) as Hdf.
    { apply list_elem_of_filter. split; [|done]. rewrite <- Hd.
      apply list_elem_of_fmap. by exists l. }
    destruct (build_imageMap_is_Some _ _ Hdf) as [img Himg].
    exists img. rewrite Hd. split; [by rewrite <- Himg|].
    apply build_imageMap_lookup in Himg as [_ Hstr]. injection Hstr. congruence.
  - apply Forall_forall. intros j Hj.
    destruct (get_liked_entries _ _ _ _ _ _ Hget Hj) as (? & ? & _). done.
  - revert Hget. unfold get_liked.
    destruct (liked_page s user page limit); [|done]. intros [= <-]. simpl.
    unfold countDocuments. by rewrite sort_desc_perm.
  - revert Hget. unfold get_liked.
    destruct (liked_page s user page limit); [|done]. by intros [= <-].
Qed.

Lemma liked_view_by_like_time_witness :
  ∃ body sorted,
    get_liked example_store 7 1 1 = OK200 body ∧
    sorted ≡ₚ filter (liked_by 7) (likes example_store) ∧
    newest_first Like.createdAt sorted ∧
    (Image._id ∘ doc) <$> pb_images body =
      Like.imageId <$> take 1 (drop 0 sorted) ∧
    Forall (λ j, isLiked j = true ∧ doc j ∈ images example_store)
           (pb_images body) ∧
    pb_total body = length sorted ∧
    pb_page body = 1%Z.
Proof.
  apply (liked_view_by_like_time example_requests 7 1 1); lia.
Defined.

(** * The collection view *)

Lemma Map_set_keys k v m k' :
  k' ∈ (Map_set k v m).*1 ↔ k' = k ∨ k' ∈ m.*1.
Proof.
  induction m as [|[k0 v0] m IH]; simpl.
  - rewrite list_elem_of_singleton, elem_of_nil. tauto.
  - case_decide; simplify_eq; csimpl; rewrite !elem_of_cons; [tauto|].
    rewrite IH. tauto.
Qed.

Lemma Map_set_NoDup k v m : NoDup m.*1 → NoDup (Map_set k v m).*1.
Proof.
  induction m as [|[k0 v0] m IH]; simpl; intros Hm.
  - apply NoDup_singleton.
  - apply NoDup_cons in Hm as [Hk0 Hm].
    case_decide; simplify_eq; csimpl; apply NoDup_cons; [done|].
    split; [|by apply IH]. rewrite Map_set_keys. intros [->|?]; done.
Qed.

Lemma Map_set_entries k v m e : e ∈ Map_set k v m → e = (k, v) ∨ e ∈ m.
Proof.
  induction m as [|[k0 v0] m IH]; simpl.
  - rewrite list_elem_of_singleton. by left.
  - case_decide; rewrite !elem_of_cons; [tauto|].
    intros [->|He]; [tauto|]. destruct (IH He); tauto.
Qed.

Lemma Map_fold_keys entries : ∀ m k,
  k ∈ (foldl (λ m e, Map_set e.1 e.2 m) m entries).*1 ↔
  k ∈ m.*1 ∨ k ∈ entries.*1.
Proof.
  induction entries as [|e entries IH]; intros m k; simpl.
  - rewrite elem_of_nil. tauto.
  - rewrite IH, Map_set_keys, elem_of_cons. tauto.
Qed.

Lemma Map_fold_NoDup entries : ∀ m,
  NoDup m.*1 → NoDup (foldl (λ m e, Map_set e.1 e.2 m) m entries).*1.
Proof.
  induction entries as [|e entries IH]; intros m Hm; simpl; [done|].
  by apply IH, Map_set_NoDup.
Qed.

Lemma Map_fold_entries entries : ∀ m e,
  e ∈ foldl (λ m e, Map_set e.1 e.2 m) m entries → e ∈ m ∨ e ∈ entries.
Proof.
  induction entries as [|[k0 v0] entries IH]; intros m e; simpl; [by left|].
  intros He. apply IH in He as [He|He]; [|right; by right].
  apply Map_set_entries in He as [->|He]; [|by left].
  right. by left.
Qed.

Section Dedup.
Context (imgs : list Image.t).

Lemma dedup_entries d : d ∈ Map_values (Map_of (keyed imgs)) → d ∈ imgs.
Proof.
  unfold Map_values, Map_of. intros Hd.
  apply list_elem_of_fmap in Hd as ([k v] & -> & He).
  apply Map_fold_entries in He as [He|He]; [by apply elem_of_nil in He|].
  unfold keyed in He. apply list_elem_of_fmap in He as (img & [= _ ->] & Himg).
  done.
Qed.

Lemma dedup_keyed e :
  e ∈ Map_of (keyed imgs) → e.1 = toString (Image._id e.2).
Proof.
  unfold Map_of. intros He.
  apply Map_fold_entries in He as [He|He]; [by apply elem_of_nil in He|].
  unfold keyed in He. by apply list_elem_of_fmap in He as (img & -> & _).
Qed.

Lemma dedup_ids_keys :
  Image._id <$> Map_values (Map_of (keyed imgs)) = hex_id <$> (Map_of (keyed imgs)).*1.
Proof.
  unfold Map_values. rewrite <- !list_fmap_compose.
  apply list_fmap_ext. intros i e Hi. simpl.
  rewrite (dedup_keyed e); [done|]. by eapply list_elem_of_lookup_2.
Qed.

Lemma dedup_NoDup : NoDup (Image._id <$> Map_values (Map_of (keyed imgs))).
Proof.
  rewrite dedup_ids_keys. apply (NoDup_fmap_2 _).
  unfold Map_of. apply Map_fold_NoDup. constructor.
Qed.

Lemma dedup_ids i :
  i ∈ Image._id <$> Map_values (Map_of (keyed imgs)) ↔ i ∈ Image._id <$> imgs.
Proof.
  rewrite dedup_ids_keys. unfold Map_of.
  rewrite (list_elem_of_fmap hex_id). split.
  - intros (k & -> & Hk). apply Map_fold_keys in Hk as [Hk|Hk];
      [by apply elem_of_nil in Hk|].
    unfold keyed in Hk. rewrite <- list_fmap_compose in Hk.
    apply list_elem_of_fmap in Hk as (img & -> & Himg). simpl.
    apply list_elem_of_fmap. by exists img.
  - intros (img & -> & Himg)%list_elem_of_fmap.
    exists (toString (Image._id img)). split; [done|].
    apply Map_fold_keys. right. unfold keyed. rewrite <- list_fmap_compose.
    apply list_elem_of_fmap. by exists img.
Qed.
End Dedup.

Lemma cast_distinct_imageId ls :
  cast_ObjectId <$> distinct_imageId ls = remove_dups (Like.imageId <$> ls).
Proof.
  unfold distinct_imageId. rewrite <- list_fmap_compose.
  rewrite <- (list_fmap_id (remove_dups _)) at 2. by apply list_fmap_ext.
Qed.

Lemma liked_image_id s user i :
  i ∈ cast_ObjectId <$> likedImages s user ↔ Exists (like_of user i) (likes s).
Proof.
  unfold likedImages. rewrite cast_distinct_imageId, elem_of_remove_dups.
  rewrite list_elem_of_fmap, Exists_exists. unfold like_of, liked_by.
  split.
  - intros (l & -> & [Hby Hl]%list_elem_of_filter). by exists l.
  - intros (l & Hl & Hby & <-). exists l. split; [done|].
    by apply list_elem_of_filter.
Qed.

Lemma likedImageDocs_spec s user :
  likedImageDocs s user =
  filter (λ d, Exists (like_of user (Image._id d)) (likes s)) (images s).
Proof.
  unfold likedImageDocs. apply list_filter_iff. intros d.
  apply liked_image_id.
Qed.

(** The [isLiked] of the collection view tells whether a like of the
    requester points at the image. *)
Lemma some_liked_spec s user img :
  some_liked (likedImages s user) img = true ↔
  Exists (like_of user (Image._id img)) (likes s).
Proof.
  rewrite <- liked_image_id. unfold some_liked.
  rewrite existsb_exists, list_elem_of_fmap. split.
  - intros (v & Hv%list_elem_of_In & Heq). apply bool_decide_eq_true in Heq.
    exists v. split; [|done]. unfold cast_ObjectId. rewrite Heq. reflexivity.
  - intros (v & Hid & Hv). exists v. split; [by apply list_elem_of_In|].
    apply bool_decide_eq_true. unfold likedImages, distinct_imageId in Hv.
    apply list_elem_of_fmap in Hv as (o & -> & _).
    unfold cast_ObjectId in Hid. simpl in *. by rewrite Hid.
Qed.

Lemma uniqueImages_from_store s user d :
  d ∈ uniqueImages s user →
  d ∈ images s ∧
  (uploaded_by user d ∨ Exists (like_of user (Image._id d)) (likes s)).
Proof.
  unfold uniqueImages. rewrite elem_of_sort_desc. intros Hd%dedup_entries.
  apply elem_of_app in Hd as [Hd|Hd].
  - apply list_elem_of_filter in Hd as [? ?]. tauto.
  - rewrite likedImageDocs_spec in Hd.
    apply list_elem_of_filter in Hd as [? ?]. tauto.
Qed.

Lemma uniqueImages_NoDup s user : NoDup (Image._id <$> uniqueImages s user).
Proof.
  unfold uniqueImages. rewrite sort_desc_perm. apply dedup_NoDup.
Qed.

Lemma uniqueImages_ids s user :
  list_to_set (Image._id <$> uniqueImages s user) =@{gset nat}
  uploads_ids s user ∪ liked_ids s user.
Proof.
  apply set_eq. intros i. unfold uploads_ids, liked_ids.
  rewrite elem_of_union, !elem_of_list_to_set. unfold uniqueImages.
  rewrite sort_desc_perm, dedup_ids, fmap_app, elem_of_app.
  by rewrite likedImageDocs_spec.
Qed.

Lemma get_collection_body s user page limit :
  get_collection s user page limit =
  OK200 (mkPageBody
           ((λ img, mkImageJson img (some_liked (likedImages s user) img)) <$>
              slice (uniqueImages s user) ((page - 1) * limit)
                    ((page - 1) * limit + limit))
           (length (uniqueImages s user)) page
           (pages_of (length (uniqueImages s user)) limit)).
Proof. done. Qed.

Lemma doc_annotated (f : Image.t → bool) (l : list Image.t) :
  doc <$> ((λ img, mkImageJson img (f img)) <$> l) = l.
Proof.
  rewrite <- list_fmap_compose. rewrite <- (list_fmap_id l) at 2.
  by apply list_fmap_ext.
Qed.

(** C5. The collection view of a user is the union of the uploads and the
    liked images, each id once: the ids of the assembled list are pairwise
    distinct and are, as a set, the union of the ids of the user's uploads
    and of the user's liked images; every entry is a stored image; the list
    is ordered by image creation time, newest first.  The reply reports the
    size of that union as total and carries the slice of that list for the
    requested page: its entries are images of the union, distinct and newest
    first; for a page number from 1 and a positive page size they are the
    window of the list at that page; and a first page large enough for the
    whole list carries every image of the union exactly once. *)
Theorem collection_is_deduplicated_union (s : Store) (user : ObjectId)
    (page limit : Z) :
  NoDup (Image._id <$> uniqueImages s user) ∧
  list_to_set (Image._id <$> uniqueImages s user) =@{gset nat}
    uploads_ids s user ∪ liked_ids s user ∧
  Forall (λ d, d ∈ images s) (uniqueImages s user) ∧
  newest_first Image.createdAt (uniqueImages s user) ∧
  ∃ body,
    get_collection s user page limit = OK200 body ∧
    pb_total body = size (uploads_ids s user ∪ liked_ids s user) ∧
    doc <$> pb_images body =
      slice (uniqueImages s user) ((page - 1) * limit)
            ((page - 1) * limit + limit) ∧
    Forall (λ j, Image._id (doc j) ∈ uploads_ids s user ∪ liked_ids s user)
           (pb_images body) ∧
    NoDup (Image._id <$> (doc <$> pb_images body)) ∧
    newest_first Image.createdAt (doc <$> pb_images body) ∧
    ((1 ≤ page)%Z → (0 < limit)%Z →
     doc <$> pb_images body =
       take (Z.to_nat limit)
            (drop (Z.to_nat ((page - 1) * limit)) (uniqueImages s user))) ∧
    (page = 1%Z → (Z.of_nat (length (uniqueImages s user)) ≤ limit)%Z →
     doc <$> pb_images body = uniqueImages s user ∧
     list_to_set (Image._id <$> (doc <$> pb_images body)) =@{gset nat}
       uploads_ids s user ∪ liked_ids s user).
Proof.
  split_and!.
  - apply uniqueImages_NoDup.
  - apply uniqueImages_ids.
  - apply Forall_forall. intros d Hd.
    by destruct (uniqueImages_from_store _ _ _ Hd).
  - apply sort_desc_sorted.
  - eexists. split; [apply get_collection_body|].
    cbn [pb_images pb_total]. rewrite doc_annotated. split_and!.
    + rewrite <- uniqueImages_ids.
      rewrite size_list_to_set by apply uniqueImages_NoDup.
      by rewrite length_fmap.
    + done.
    + apply Forall_fmap, Forall_forall. intros d Hd. simpl.
      rewrite <- uniqueImages_ids. apply elem_of_list_to_set.
      apply list_elem_of_fmap. exists d. split; [done|].
      eapply elem_of_sublist; [exact Hd | apply slice_sublist].
    + eapply sublist_NoDup; [apply uniqueImages_NoDup|].
      apply fmap_sublist, slice_sublist.
    + eapply newest_first_sublist; [apply slice_sublist|].
      apply sort_desc_sorted.
    + intros Hp Hl. by apply slice_page.
    + intros -> Hall.
      assert (slice (uniqueImages s user) ((1 - 1) * limit)
                    ((1 - 1) * limit + limit) = uniqueImages s user) as ->.
      { unfold slice, relative_index. rewrite !decide_False by lia.
        replace (Z.to_nat (Z.min ((1 - 1) * limit) _)) with 0 by lia.
        replace (Z.to_nat (Z.min ((1 - 1) * limit + limit) _))
          with (length (uniqueImages s user)) by lia.
        rewrite drop_0, Nat.sub_0_r. by apply take_ge. }
      split; [done | apply uniqueImages_ids].
Qed.

Lemma collection_is_deduplicated_union_witness :
  ∃ body,
    get_collection example_store 7 1 20 = OK200 body ∧
    doc <$> pb_images body = uniqueImages example_store 7 ∧
    list_to_set (Image._id <$> (doc <$> pb_images body)) =@{gset nat}
      uploads_ids example_store 7 ∪ liked_ids example_store 7.
Proof.
  destruct (collection_is_deduplicated_union example_store 7 1 20)
    as (_ & _ & _ & _ & body & Hget & _ & _ & _ & _ & _ & _ & Hall).
  exists body. split; [exact Hget|]. apply Hall; [reflexivity|].
  vm_compute. discriminate.
Defined.

(** C6. For page [page >= 1] of size [limit > 0] the collection view
    answers 200 with the window of [limit] entries that starts at index
    [(page - 1) * limit] of the deduplicated sorted list, the length of that
    list as total, the requested page number, and as page count the least
    [k] with [total <= k * limit]; a page that starts at or past the end has
    no entries. *)
Theorem collection_pagination (s : Store) (user : ObjectId) (page limit : Z) :
  (1 ≤ page)%Z →
  (0 < limit)%Z →
  ∃ body pages,
    get_collection s user page limit = OK200 body ∧
    doc <$> pb_images body =
      take (Z.to_nat limit)
           (drop (Z.to_nat ((page - 1) * limit)) (uniqueImages s user)) ∧
    pb_total body = length (uniqueImages s user) ∧
    pb_page body = page ∧
    pb_pages body = Some pages ∧
    ((pages - 1) * limit < Z.of_nat (pb_total body) ≤ pages * limit)%Z ∧
    ((Z.of_nat (pb_total body) ≤ (page - 1) * limit)%Z → pb_images body = []).
Proof.
  intros Hp Hl.
  exists (mkPageBody
            ((λ img, mkImageJson img (some_liked (likedImages s user) img)) <$>
               slice (uniqueImages s user) ((page - 1) * limit)
                     ((page - 1) * limit + limit))
            (length (uniqueImages s user)) page
            (pages_of (length (uniqueImages s user)) limit)),
    (ceil_div (Z.of_nat (length (uniqueImages s user))) limit).
  cbn [pb_images pb_total pb_page pb_pages].
  split; [done|]. split; [by rewrite doc_annotated, slice_page|].
  split; [done|]. split; [done|].
  split; [unfold pages_of; by rewrite decide_False by lia|].
  split; [by apply ceil_div_spec|].
  intros Hend. rewrite slice_page by done.
  rewrite drop_ge by lia. by rewrite take_nil.
Qed.

Lemma collection_pagination_witness :
  ∃ body pages,
    get_collection example_store 7 2 1 = OK200 body ∧
    doc <$> pb_images body = take 1 (drop 1 (uniqueImages example_store 7)) ∧
    pb_total body = length (uniqueImages example_store 7) ∧
    pb_page body = 2%Z ∧
    pb_pages body = Some pages ∧
    ((pages - 1) * 1 < Z.of_nat (pb_total body) ≤ pages * 1)%Z ∧
    ((Z.of_nat (pb_total body) ≤ (2 - 1) * 1)%Z → pb_images body = []).
Proof.
  apply (collection_pagination example_store 7 2 1); lia.
Defined.

(** * The uploads view *)

Lemma includes_ObjectIds (ids : list ObjectId) (needle : HexString) :
  includes (JsObjectId <$> ids) needle = false.
Proof. induction ids as [|o ids IH]; [done|]. simpl. exact IH. Qed.

(** Line 138 looks a string up in an array of ObjectId objects: no entry of
    the uploads view is ever marked liked. *)
Lemma uploads_view_never_liked s user page limit body :
  get_user_images s user page limit = OK200 body →
  Forall (λ j, isLiked j = false) (pb_images body).
Proof.
  unfold get_user_images.
  destruct (mongo_skip _ _) as [skipped|]; [|done]. intros [= <-]. simpl.
  apply Forall_fmap, Forall_forall. intros img _. simpl.
  apply includes_ObjectIds.
Qed.

(** C4, on the code: user 7 uploaded image 0 and has a Like record on it, yet
    the uploads view of user 7 marks image 0 as not liked; the collection
    view, which compares strings with strings, marks the same image liked. *)
Theorem uploads_view_misses_own_like :
  Exists (like_of 7 0) (likes example_store) ∧
  get_user_images example_store 7 1 20 =
    OK200 (mkPageBody [mkImageJson example_image_a false] 1 1 (Some 1%Z)) ∧
  get_collection example_store 7 1 20 =
    OK200 (mkPageBody [mkImageJson example_image_b true;
                       mkImageJson example_image_a true] 2 1 (Some 1%Z)).
Proof.
  split_and!; [|reflexivity|reflexivity].
  apply Exists_cons_hd. by split.
Qed.

(** * The stats route *)

Lemma or_zero_id c : or_zero c = c.
Proof. unfold or_zero. by case_decide. Qed.

Lemma stats_fold imgs : ∀ a,
  foldl (λ sum img, (sum + or_zero (Image.likesCount img))%Z) a imgs =
  (a + sum_likesCount imgs)%Z.
Proof.
  unfold sum_likesCount.
  induction imgs as [|d imgs IH]; intros a; csimpl; [lia|].
  rewrite IH, or_zero_id. lia.
Qed.

Lemma sum_likesCount_nonneg imgs :
  Forall (λ d, (0 ≤ Image.likesCount d)%Z) imgs → (0 ≤ sum_likesCount imgs)%Z.
Proof.
  unfold sum_likesCount. induction 1 as [|d imgs Hd _ IH]; csimpl; lia.
Qed.

(** C10. On any store the routes have built, the stats route answers 200
    with the sum of the counters of exactly the images the user uploaded;
    that sum is not negative; and any store with the same uploads of this
    user gives the same answer, whatever other users have uploaded. *)
Theorem stats_total_is_own_sum (reqs : list Request) (user : ObjectId) :
  let s := run reqs empty_store in
  get_stats s user =
    OK200 (sum_likesCount (filter (uploaded_by user) (images s))) ∧
  (0 ≤ sum_likesCount (filter (uploaded_by user) (images s)))%Z ∧
  ∀ s', filter (uploaded_by user) (images s') =
        filter (uploaded_by user) (images s) →
        get_stats s' user = get_stats s user.
Proof.
  intros s. split_and!.
  - unfold get_stats. by rewrite stats_fold, Z.add_0_l.
  - apply sum_likesCount_nonneg, Forall_filter_keep.
    apply (wf_counts _ (wf_reachable reqs)).
  - intros s' Hsame. unfold get_stats. by rewrite Hsame.
Qed.

Lemma stats_total_is_own_sum_witness :
  get_stats (upload example_store 8 (photo "c.png") "" (Some "false") 600%Z).1 7 =
  get_stats example_store 7.
Proof.
  refine (proj2 (proj2 (stats_total_is_own_sum example_requests 7)) _ _).
  reflexivity.
Defined.

(** * Like records and counters stay in step *)

Lemma countDocuments_perm {A} (P : A → Prop) `{!∀ d, Decision (P d)} c c' :
  c ≡ₚ c' → countDocuments P c = countDocuments P c'.
Proof. intros Hp. unfold countDocuments. by rewrite Hp. Qed.

Lemma countDocuments_cons {A} (P : A → Prop) `{!∀ d, Decision (P d)} x c :
  countDocuments P (x :: c) =
  (if decide (P x) then 1 else 0) + countDocuments P c.
Proof.
  unfold countDocuments. case_decide.
  - by rewrite filter_cons_True.
  - by rewrite filter_cons_False.
Qed.

(** Removing by a key that identifies one document removes that document. *)
Lemma deleteOne_unique {A B} `{!EqDecision B} (f : A → B) (c : list A) x :
  NoDup (f <$> c) → x ∈ c →
  c ≡ₚ x :: deleteOne (λ d, f d = f x) c.
Proof.
  induction c as [|y c IH]; simpl; intros Hn Hx; [by apply elem_of_nil in Hx|].
  apply NoDup_cons in Hn as [Hy Hn].
  case_decide as Hfy.
  - apply elem_of_cons in Hx as [->|Hx]; [done|].
    destruct Hy. rewrite Hfy. apply list_elem_of_fmap. by exists x.
  - apply elem_of_cons in Hx as [->|Hx]; [done|].
    rewrite (IH Hn Hx) at 1. apply Permutation_swap.
Qed.

Lemma deleteOne_none_left {A B} `{!EqDecision B} (f : A → B) (c : list A) i :
  NoDup (f <$> c) → Forall (λ d, f d ≠ i) (deleteOne (λ d, f d = i) c).
Proof.
  induction c as [|y c IH]; simpl; intros Hn; [constructor|].
  apply NoDup_cons in Hn as [Hy Hn].
  case_decide as Hfy.
  - apply Forall_forall. intros d Hd Hfd. apply Hy. rewrite Hfy, <- Hfd.
    apply list_elem_of_fmap. by exists d.
  - constructor; [done | by apply IH].
Qed.

(** With distinct keys, a replacement changes the one document of that key
    and nothing else. *)
Lemma Forall_replaceOne_unique {A B} `{!EqDecision B} (f : A → B)
    (Q Q' : A → Prop) (c : list A) i d' :
  NoDup (f <$> c) →
  Forall Q c →
  Q' d' →
  (∀ d, Q d → f d ≠ i → Q' d) →
  Forall Q' (replaceOne (λ d, f d = i) d' c).
Proof.
  intros Hn Hc Hd' Himp. induction Hc as [|y c Hy Hc IH]; simpl; [constructor|].
  apply NoDup_cons in Hn as [Hyn Hn].
  case_decide as Hfy.
  - constructor; [done|]. apply Forall_forall. intros d Hd.
    rewrite Forall_forall in Hc. apply Himp; [by apply Hc|].
    intros Hfd. apply Hyn. rewrite Hfy, <- Hfd.
    apply list_elem_of_fmap. by exists d.
  - constructor; [by apply Himp | by apply IH].
Qed.

Lemma findOne_unique {A B} `{!EqDecision B} (f : A → B) (c : list A) x :
  NoDup (f <$> c) → x ∈ c → findOne (λ d, f d = f x) c = Some x.
Proof.
  induction c as [|y c IH]; simpl; intros Hn Hx; [by apply elem_of_nil in Hx|].
  apply NoDup_cons in Hn as [Hy Hn].
  case_decide as Hfy.
  - apply elem_of_cons in Hx as [->|Hx]; [done|].
    destruct Hy. rewrite Hfy. apply list_elem_of_fmap. by exists x.
  - apply elem_of_cons in Hx as [->|Hx]; [done|]. by apply IH.
Qed.

Lemma likes_on_none s i :
  wf s → nextId s ≤ i → likes_on s i = 0.
Proof.
  intros [_ Hi _ _ Hr] Hle. unfold likes_on. apply countDocuments_none.
  eapply Forall_impl; [exact Hr|]. simpl. intros l Hl Hon.
  apply list_elem_of_fmap in Hl as (d & Hd & Hdin).
  rewrite Forall_forall in Hi. specialize (Hi d Hdin).
  unfold like_on in Hon. lia.
Qed.

Lemma consistent_empty : consistent empty_store.
Proof. split; simpl; [apply wf_empty | constructor ..]. Qed.

Lemma consistent_upload s user file description isPublic now :
  consistent s → consistent (upload s user file description isPublic now).1.
Proof.
  intros Hs. pose proof Hs as [Hwf Hl Hp Hc].
  pose proof (wf_upload s user file description isPublic now Hwf) as Hwf'.
  destruct (upload_store s user file description isPublic now)
    as [->|(image & Hup & Hid & Hzero)]; [done|].
  rewrite Hup in Hwf' |- *.
  split; simpl; try done.
  apply Forall_app. split; [exact Hc|].
  constructor; [|constructor]. rewrite Hzero, Hid.
  change (0%Z = Z.of_nat (likes_on s (nextId s))).
  by rewrite likes_on_none.
Qed.

Lemma consistent_toggle_like s user imageId now :
  consistent s → consistent (toggle_like s user imageId now).1.
Proof.
  intros Hs. pose proof Hs as [Hwf Hl Hp Hc].
  pose proof (wf_toggle_like s user imageId now Hwf) as Hwf'.
  destruct (findOne (has_id imageId) (images s)) as [image|] eqn:Himg;
    [|by rewrite toggle_like_missing].
  destruct (findOne_Some _ _ _ Himg) as [Hin Hid]. unfold has_id in Hid.
  pose proof (wf_image_nodup _ Hwf) as Hn.
  assert (Image.likesCount image = Z.of_nat (likes_on s imageId)) as Hcount.
  { rewrite Forall_forall in Hc. rewrite <- Hid. by apply Hc. }
  destruct (findOne (like_of user imageId) (likes s)) as [existing|] eqn:Hlike.
  - revert Hwf'. rewrite (toggle_like_existing _ _ _ _ _ Himg _ Hlike).
    simpl. intros Hwf'.
    destruct (findOne_Some _ _ _ Hlike) as [Hein [Heu Hei]].
    pose proof (deleteOne_unique Like._id (likes s) existing Hl Hein) as Hperm.
    change (λ d, Like._id d = Like._id existing)
      with (like_has_id (Like._id existing)) in Hperm.
    set (likes' := deleteOne (like_has_id (Like._id existing)) (likes s)) in *.
    assert (∀ j, countDocuments (like_on j) (likes s) =
                 (if decide (imageId = j) then 1 else 0) +
                 countDocuments (like_on j) likes') as Hcnt.
    { intros j. rewrite (countDocuments_perm _ _ _ Hperm), countDocuments_cons.
      destruct (decide (like_on j existing)) as [H1|H1],
               (decide (imageId = j)) as [H2|H2];
        unfold like_on in H1; try done; congruence. }
    split; simpl; [done | | |].
    + eapply sublist_NoDup; [exact Hl|].
      apply fmap_sublist, deleteOne_sublist.
    + eapply sublist_NoDup; [exact Hp|].
      apply fmap_sublist, deleteOne_sublist.
    + apply (Forall_replaceOne_unique Image._id
               (λ d, Image.likesCount d = Z.of_nat (likes_on s (Image._id d))));
        [done | done | |].
      * simpl. unfold likes_on in *. simpl. rewrite Hid.
        specialize (Hcnt imageId). rewrite decide_True in Hcnt by done. lia.
      * intros d Hd Hne. unfold likes_on in *. simpl.
        specialize (Hcnt (Image._id d)).
        rewrite decide_False in Hcnt by done. lia.
  - revert Hwf'. rewrite (toggle_like_fresh _ _ _ _ _ Himg Hlike).
    simpl. intros Hwf'.
    apply findOne_None in Hlike.
    split; simpl; [done | | |].
    + rewrite fmap_app. apply NoDup_app. split_and!; [done| |].
      * intros x Hx Hx'. simpl in Hx'. apply list_elem_of_singleton in Hx'.
        apply list_elem_of_fmap in Hx as (l & -> & Hlin).
        pose proof (wf_like_ids _ Hwf) as Hids.
        rewrite Forall_forall in Hids. specialize (Hids l Hlin). lia.
      * simpl. apply NoDup_singleton.
    + rewrite fmap_app. apply NoDup_app. split_and!; [done| |].
      * intros x Hx Hx'. simpl in Hx'. apply list_elem_of_singleton in Hx'.
        apply list_elem_of_fmap in Hx as (l & -> & Hlin).
        rewrite Forall_forall in Hlike. apply (Hlike l Hlin).
        unfold like_pair in Hx'. simpl in Hx'. unfold like_of.
        by injection Hx' as -> ->.
      * simpl. apply NoDup_singleton.
    + apply (Forall_replaceOne_unique Image._id
               (λ d, Image.likesCount d = Z.of_nat (likes_on s (Image._id d))));
        [done | done | |].
      * simpl. unfold likes_on in *. simpl. rewrite Hid.
        rewrite countDocuments_app, countDocuments_cons.
        rewrite decide_True by done. unfold countDocuments at 2. simpl. lia.
      * intros d Hd Hne. unfold likes_on in *. simpl.
        rewrite countDocuments_app, countDocuments_cons.
        rewrite decide_False by (unfold like_on; simpl; congruence).
        unfold countDocuments at 2. simpl. lia.
Qed.

Lemma countDocuments_filter_keep {A} (P Q : A → Prop)
    `{!∀ d, Decision (P d)} `{!∀ d, Decision (Q d)} c :
  (∀ d, P d → Q d) →
  countDocuments P (filter Q c) = countDocuments P c.
Proof.
  intros HPQ. unfold countDocuments. induction c as [|x c IH]; [done|].
  destruct (decide (Q x)) as [HQ|HQ].
  - rewrite (filter_cons_True Q) by done.
    destruct (decide (P x)).
    + rewrite !(filter_cons_True P) by done. simpl. by rewrite IH.
    + by rewrite !(filter_cons_False P) by done.
  - rewrite (filter_cons_False Q) by done.
    rewrite (filter_cons_False P) by (intros HP; by apply HQ, HPQ). done.
Qed.

Lemma consistent_delete_image s user imageId :
  consistent s → consistent (delete_image s user imageId).1.
Proof.
  intros Hs. pose proof Hs as [Hwf Hl Hp Hc].
  pose proof (wf_delete_image s user imageId Hwf) as Hwf'.
  revert Hwf'. unfold delete_image.
  destruct (findOne (has_id imageId) (images s)) as [image|]; [|done].
  case_decide; [done|]. simpl. intros Hwf'.
  split; simpl; [done | | |].
  - eapply sublist_NoDup; [exact Hl|]. apply fmap_sublist, sublist_filter.
  - eapply sublist_NoDup; [exact Hp|]. apply fmap_sublist, sublist_filter.
  - pose proof (deleteOne_none_left Image._id (images s) imageId
                  (wf_image_nodup _ Hwf)) as Hgone.
    change (λ d, Image._id d = imageId) with (has_id imageId) in Hgone.
    pose proof (Forall_deleteOne (has_id imageId) _ _ Hc) as Hkept.
    rewrite Forall_forall in Hgone, Hkept. apply Forall_forall.
    intros d Hd. rewrite (Hkept d Hd). f_equal.
    unfold likes_on, deleteMany. simpl. symmetry.
    apply countDocuments_filter_keep. unfold like_on. intros l Hon Hon'.
    apply (Hgone d Hd). congruence.
Qed.

Lemma consistent_step s r : consistent s → consistent (step s r).
Proof.
  destruct r; simpl;
    auto using consistent_upload, consistent_toggle_like,
               consistent_delete_image.
Qed.

Lemma consistent_run reqs : ∀ s, consistent s → consistent (run reqs s).
Proof.
  induction reqs as [|r reqs IH]; intros s Hs; [done|].
  simpl. apply IH. by apply consistent_step.
Qed.

Lemma consistent_reachable reqs : consistent (run reqs empty_store).
Proof. apply consistent_run, consistent_empty. Qed.

(** X1. On every store the routes have built, the counter of each stored
    image is the number of Like records that point at the image. *)
Theorem likesCount_counts_likes (reqs : list Request) :
  Forall (λ d, Image.likesCount d =
               Z.of_nat (length (filter (like_on (Image._id d))
                                        (likes (run reqs empty_store)))))
         (images (run reqs empty_store)).
Proof. apply (cons_counts _ (consistent_reachable reqs)). Qed.

(** X2. On every store the routes have built, no two Like records share
    their user and image: the unique index of the Like model is never put to
    the test. *)
Theorem one_like_per_user_and_image (reqs : list Request) :
  NoDup ((λ l, (Like.userId l, Like.imageId l)) <$>
           likes (run reqs empty_store)).
Proof. apply (cons_pairs _ (consistent_reachable reqs)). Qed.

Lemma findOne_iff {A} (P Q : A → Prop)
    `{!∀ d, Decision (P d)} `{!∀ d, Decision (Q d)} c :
  (∀ d, P d ↔ Q d) → findOne P c = findOne Q c.
Proof.
  intros HPQ. induction c as [|x c IH]; simpl; [done|].
  rewrite IH. destruct (HPQ x). do 2 case_decide; tauto || done.
Qed.

Lemma like_pair_of user imageId l :
  like_of user imageId l ↔ like_pair l = (user, imageId).
Proof.
  unfold like_of, like_pair. split; [by intros [-> ->]|].
  by intros [= -> ->].
Qed.

(** The one like of a user on an image is the one [findOne] returns. *)
Lemma findOne_like_of s user imageId l :
  consistent s → l ∈ likes s → like_of user imageId l →
  findOne (like_of user imageId) (likes s) = Some l.
Proof.
  intros Hs Hl Hof.
  rewrite <- (findOne_unique like_pair (likes s) l (cons_pairs _ Hs) Hl).
  apply findOne_iff. intros d. rewrite like_pair_of.
  apply like_pair_of in Hof. by rewrite Hof.
Qed.

Lemma filter_deleteOne {A} (P Q : A → Prop)
    `{!∀ d, Decision (P d)} `{!∀ d, Decision (Q d)} c x :
  findOne P c = Some x → ¬ Q x → filter Q (deleteOne P c) = filter Q c.
Proof.
  induction c as [|y c IH]; simpl; [done|].
  case_decide; intros Hf Hx.
  - simplify_eq. by rewrite filter_cons_False.
  - rewrite !filter_cons. by rewrite IH.
Qed.

(** X3. On every store the routes have built, when the user has a Like on
    an existing image, one toggle removes exactly that Like record, leaves
    the user with no like on the image, lowers the stored counter by exactly
    one (it was at least one) and answers [isLiked = false] with the new
    counter. *)
Theorem toggle_like_removes_like (reqs : list Request)
    (user imageId : ObjectId) (now : Z) (image : Image.t) (existing : Like.t) :
  let s := run reqs empty_store in
  findOne (has_id imageId) (images s) = Some image →
  existing ∈ likes s →
  like_of user imageId existing →
  (1 ≤ Image.likesCount image)%Z ∧
  (toggle_like s user imageId now).2 =
    OK200 (mkLikeBody "Image unliked" false (Image.likesCount image - 1)) ∧
  likes s ≡ₚ existing :: likes (toggle_like s user imageId now).1 ∧
  Forall (λ l, ¬ like_of user imageId l)
         (likes (toggle_like s user imageId now).1) ∧
  findOne (has_id imageId) (images (toggle_like s user imageId now).1) =
    Some (Image.set_likesCount (Image.likesCount image - 1) image).
Proof.
  intros s Himg Hin Hof.
  pose proof (consistent_reachable reqs) as Hs. fold s in Hs.
  pose proof (findOne_like_of _ _ _ _ Hs Hin Hof) as Hlike.
  destruct (findOne_Some _ _ _ Himg) as [Himgin Hid]. unfold has_id in Hid.
  assert (1 ≤ Image.likesCount image)%Z as Hone.
  { pose proof (cons_counts _ Hs) as Hc. rewrite Forall_forall in Hc.
    rewrite (Hc _ Himgin). unfold likes_on.
    pose proof (length_filter_lt (λ l, ¬ like_on (Image._id image) l)
                  (likes s) existing Hin) as Hlt.
    pose proof (filter_app_complement (like_on (Image._id image)) (likes s))
      as Hperm.
    apply Permutation_length in Hperm. rewrite length_app in Hperm.
    unfold countDocuments.
    assert (¬ ¬ like_on (Image._id image) existing) as Hnn.
    { intros Hn. apply Hn. unfold like_on. destruct Hof. congruence. }
    specialize (Hlt Hnn). lia. }
  rewrite (toggle_like_existing _ _ _ _ _ Himg _ Hlike). simpl.
  replace (Z.max 0 (Image.likesCount image - 1))
    with (Image.likesCount image - 1)%Z by lia.
  pose proof (deleteOne_unique Like._id (likes s) existing
                (cons_like_ids _ Hs) Hin) as Hperm.
  change (λ d, Like._id d = Like._id existing)
    with (like_has_id (Like._id existing)) in Hperm.
  split_and!; [done | done | done | |].
  - pose proof (cons_pairs _ Hs) as Hp. rewrite Hperm in Hp.
    rewrite fmap_cons in Hp. apply NoDup_cons in Hp as [Hnot _].
    apply Forall_forall. intros l Hl Hlof. apply Hnot.
    apply like_pair_of in Hof, Hlof. rewrite Hof, <- Hlof.
    apply list_elem_of_fmap. by exists l.
  - by apply (findOne_replaceOne _ image).
Qed.

Lemma toggle_like_removes_like_witness :
  (toggle_like example_store 7 1 600%Z).2 =
    OK200 (mkLikeBody "Image unliked" false 0%Z).
Proof.
  refine (proj1 (proj2 (toggle_like_removes_like example_requests 7 1 600%Z
                          example_image_b (Like.mk 3 7 1 400%Z) _ _ _))).
  - reflexivity.
  - vm_compute. apply list_elem_of_In. simpl. tauto.
  - by split.
Defined.

Lemma toggle_many_odd user imageId image :
  (0 ≤ Image.likesCount image)%Z →
  ∀ k times s last,
    length times = S (2 * k) →
    Forall (λ l, Like._id l < nextId s) (likes s) →
    findOne (has_id imageId) (images s) = Some image →
    findOne (like_of user imageId) (likes s) = None →
    (toggle_many s user imageId times last).2 =
      Some (OK200 (mkLikeBody "Image liked" true (Image.likesCount image + 1)))
    ∧ findOne (has_id imageId)
        (images (toggle_many s user imageId times last).1) =
      Some (Image.set_likesCount (Image.likesCount image + 1) image)
    ∧ ∃ like, likes (toggle_many s user imageId times last).1 =
              likes s ++ [like] ∧ like_of user imageId like.
Proof.
  intros Hc. induction k as [|k IH]; intros times s last Hlen Hids Himg Hnone.
  - destruct times as [|t [|? ?]]; try discriminate. simpl.
    rewrite (toggle_like_fresh _ _ _ _ _ Himg Hnone). simpl.
    split_and!; [done | |].
    + apply (findOne_replaceOne _ image); [done|].
      by destruct (findOne_Some _ _ _ Himg).
    + eexists. split; [done|]. by split.
  - destruct times as [|t1 [|t2 times]]; simpl in Hlen; try lia.
    simpl.
    rewrite (toggle_like_twice s user imageId t1 t2 image) by done.
    simpl.
    apply (IH times (mkStore (images s) (likes s) (S (nextId s)))); simpl;
      try done; try lia.
    eapply Forall_impl; [exact Hids|]. simpl. lia.
Qed.

(** X4. On every store the routes have built, if the user has no like on an
    existing image, an odd number of toggles by that user on that image ends
    with the reply [isLiked = true] and the counter one above its value
    before the run; the image is stored with that counter and the Like
    collection has gained one record, a like of the user on the image. *)
Theorem toggle_odd_likes (reqs : list Request) (user imageId : ObjectId)
    (image : Image.t) (times : list Z) :
  let s := run reqs empty_store in
  findOne (has_id imageId) (images s) = Some image →
  Forall (λ l, ¬ like_of user imageId l) (likes s) →
  Nat.Odd (length times) →
  (toggle_many s user imageId times None).2 =
    Some (OK200 (mkLikeBody "Image liked" true (Image.likesCount image + 1))) ∧
  findOne (has_id imageId)
    (images (toggle_many s user imageId times None).1) =
    Some (Image.set_likesCount (Image.likesCount image + 1) image) ∧
  ∃ like, likes (toggle_many s user imageId times None).1 = likes s ++ [like] ∧
          like_of user imageId like.
Proof.
  intros s Himg Hnone [k Hk].
  destruct (wf_reachable reqs) as [Hc _ _ Hl _]. fold s in Hc, Hl.
  assert (0 ≤ Image.likesCount image)%Z as Hc0.
  { rewrite Forall_forall in Hc. apply Hc.
    by destruct (findOne_Some _ _ _ Himg). }
  apply (toggle_many_odd user imageId image Hc0 k); try done; [lia|].
  by apply findOne_None.
Qed.

Lemma toggle_odd_likes_witness :
  (toggle_many example_store 8 1 [600; 700; 800]%Z None).2 =
    Some (OK200 (mkLikeBody "Image liked" true 2%Z)).
Proof.
  refine (proj1 (toggle_odd_likes example_requests 8 1 example_image_b
                   [600; 700; 800]%Z _ _ _)).
  - reflexivity.
  - vm_compute. repeat constructor; intros [? ?]; discriminate.
  - by exists 1.
Defined.

(** X5. On every store the routes have built, a toggle by one user on one
    image leaves the Like records of every other (user, image) pair as they
    were, and leaves every other image document as it was. *)
Theorem toggle_like_leaves_others (reqs : list Request)
    (user imageId other_user other_image : ObjectId) (now : Z) :
  let s := run reqs empty_store in
  (other_user, other_image) ≠ (user, imageId) →
  filter (like_of other_user other_image)
         (likes (toggle_like s user imageId now).1) =
    filter (like_of other_user other_image) (likes s) ∧
  (other_image ≠ imageId →
   findOne (has_id other_image) (images (toggle_like s user imageId now).1) =
   findOne (has_id other_image) (images s)).
Proof.
  intros s Hne.
  pose proof (consistent_reachable reqs) as Hs. fold s in Hs.
  destruct (findOne (has_id imageId) (images s)) as [image|] eqn:Himg;
    [|by rewrite toggle_like_missing].
  destruct (findOne_Some _ _ _ Himg) as [_ Hid].
  destruct (findOne (like_of user imageId) (likes s)) as [existing|] eqn:Hlike.
  - rewrite (toggle_like_existing _ _ _ _ _ Himg _ Hlike). simpl. split.
    + destruct (findOne_Some _ _ _ Hlike) as [Hin [Hu Hi]].
      apply (filter_deleteOne _ _ _ existing).
      * apply (findOne_unique Like._id (likes s) existing);
          [apply (cons_like_ids _ Hs) | done].
      * intros [Hu' Hi']. apply Hne. congruence.
    + intros Hother. by apply findOne_replaceOne_other.
  - rewrite (toggle_like_fresh _ _ _ _ _ Himg Hlike). simpl. split.
    + rewrite filter_app, filter_cons_False, filter_nil, app_nil_r; [done|].
      intros [Hu' Hi']. simpl in *. apply Hne. congruence.
    + intros Hother. by apply findOne_replaceOne_other.
Qed.

Lemma toggle_like_leaves_others_witness :
  filter (like_of 7 0) (likes (toggle_like example_store 8 0 600%Z).1) =
  filter (like_of 7 0) (likes example_store).
Proof.
  refine (proj1 (toggle_like_leaves_others example_requests 8 0 7 0 600%Z _)).
  discriminate.
Defined.

(** * Stats against the Like records *)

Lemma length_filter_or {A} (P Q : A → Prop)
    `{!∀ d, Decision (P d)} `{!∀ d, Decision (Q d)} c :
  (∀ d, P d → Q d → False) →
  length (filter (λ d, P d ∨ Q d) c) =
  length (filter P c) + length (filter Q c).
Proof.
  intros Hdis. induction c as [|x c IH]; [done|].
  destruct (decide (P x)) as [HP|HP], (decide (Q x)) as [HQ|HQ].
  - destruct (Hdis x HP HQ).
  - rewrite (filter_cons_True (λ d, P d ∨ Q d)) by by left.
    rewrite (filter_cons_True P), (filter_cons_False Q) by done.
    simpl. by rewrite IH.
  - rewrite (filter_cons_True (λ d, P d ∨ Q d)) by by right.
    rewrite (filter_cons_False P), (filter_cons_True Q) by done.
    simpl. rewrite IH. lia.
  - rewrite (filter_cons_False (λ d, P d ∨ Q d)) by tauto.
    by rewrite (filter_cons_False P), (filter_cons_False Q) by done.
Qed.

(** Adding up, over images of distinct ids, the likes that point at each
    image counts the likes that point at any of them. *)
Lemma sum_likes_on (ls : list Like.t) (imgs : list Image.t) :
  NoDup (Image._id <$> imgs) →
  foldr Z.add 0%Z
    ((λ d, Z.of_nat (countDocuments (like_on (Image._id d)) ls)) <$> imgs) =
  Z.of_nat (length (filter (λ l, Like.imageId l ∈ Image._id <$> imgs) ls)).
Proof.
  induction imgs as [|d imgs IH]; csimpl; intros Hn.
  - rewrite (list_filter_iff _ (λ _, False)); [|intros l; by rewrite elem_of_nil].
    by induction ls.
  - apply NoDup_cons in Hn as [Hd Hn].
    rewrite (list_filter_iff _
               (λ l, like_on (Image._id d) l ∨
                     Like.imageId l ∈ Image._id <$> imgs)).
    + rewrite length_filter_or, (IH Hn); [unfold countDocuments; lia|].
      unfold like_on. intros l Hl Hin. apply Hd. by rewrite <- Hl.
    + intros l. unfold like_on. by rewrite elem_of_cons.
Qed.

Lemma sum_likesCount_ext (f : Image.t → Z) imgs :
  Forall (λ d, Image.likesCount d = f d) imgs →
  sum_likesCount imgs = foldr Z.add 0%Z (f <$> imgs).
Proof.
  unfold sum_likesCount. induction 1 as [|d imgs Hd _ IH]; csimpl; [done|].
  by rewrite Hd, IH.
Qed.

(** X6. On every store the routes have built, the total the stats route
    reports to a user is the number of Like records that point at an image
    this user uploaded, whoever placed them. *)
Theorem stats_counts_likes_on_own_uploads (reqs : list Request)
    (user : ObjectId) :
  let s := run reqs empty_store in
  get_stats s user =
    OK200 (Z.of_nat
             (length
                (filter (λ l, Like.imageId l ∈
                              Image._id <$> filter (uploaded_by user) (images s))
                        (likes s)))).
Proof.
  intros s.
  pose proof (consistent_reachable reqs) as Hs. fold s in Hs.
  unfold get_stats. rewrite stats_fold, Z.add_0_l. f_equal.
  rewrite (sum_likesCount_ext
             (λ d, Z.of_nat (countDocuments (like_on (Image._id d)) (likes s)))).
  - apply sum_likes_on.
    eapply sublist_NoDup; [apply (wf_image_nodup _ (cons_wf _ Hs))|].
    apply fmap_sublist, sublist_filter.
  - apply Forall_filter_keep, (cons_counts _ Hs).
Qed.

(** * The views, page by page *)

Lemma get_user_images_docs s user page limit body :
  get_user_images s user page limit = OK200 body →
  ∃ skipped,
    mongo_skip ((page - 1) * limit)%Z
      (sort_desc Image.createdAt (filter (uploaded_by user) (images s)))
      = Some skipped ∧
    doc <$> pb_images body = mongo_limit limit skipped ∧
    pb_total body = length (filter (uploaded_by user) (images s)) ∧
    pb_page body = page ∧
    pb_pages body = pages_of (pb_total body) limit.
Proof.
  unfold get_user_images.
  destruct (mongo_skip _ _) as [skipped|]; [|done]. intros [= <-].
  exists skipped. simpl. split_and!; try done. apply doc_annotated.
Qed.

(** X7. For page [page >= 1] of size [limit > 0] the uploads view answers
    200 with that window of the requester's uploads arranged newest first;
    the total is the number of the requester's uploads and the page count is
    the least [k] with [total <= k * limit]. *)
Theorem uploads_view_window (s : Store) (user : ObjectId) (page limit : Z) :
  (1 ≤ page)%Z →
  (0 < limit)%Z →
  ∃ body sorted pages,
    get_user_images s user page limit = OK200 body ∧
    sorted ≡ₚ filter (uploaded_by user) (images s) ∧
    newest_first Image.createdAt sorted ∧
    doc <$> pb_images body =
      take (Z.to_nat limit) (drop (Z.to_nat ((page - 1) * limit)) sorted) ∧
    pb_total body = length sorted ∧
    pb_page body = page ∧
    pb_pages body = Some pages ∧
    ((pages - 1) * limit < Z.of_nat (pb_total body))%Z ∧
    (Z.of_nat (pb_total body) ≤ pages * limit)%Z.
Proof.
  intros Hp Hl.
  assert (0 ≤ (page - 1) * limit)%Z as Hskip by nia.
  set (sorted := sort_desc Image.createdAt
                   (filter (uploaded_by user) (images s))).
  assert (∃ body, get_user_images s user page limit = OK200 body)
    as [body Hget].
  { unfold get_user_images. rewrite mongo_skip_Some by done. by eexists. }
  destruct (get_user_images_docs _ _ _ _ _ Hget)
    as (skipped & Hsk & Hdocs & Htot & Hpage & Hpages).
  rewrite mongo_skip_Some in Hsk by done. injection Hsk as <-.
  rewrite mongo_limit_pos in Hdocs by done.
  exists body, sorted,
    (ceil_div (Z.of_nat (length (filter (uploaded_by user) (images s)))) limit).
  pose proof (ceil_div_spec
                (Z.of_nat (length (filter (uploaded_by user) (images s))))
                limit Hl) as [Hlo Hhi].
  split; [done|]. split; [apply sort_desc_perm|].
  split; [apply sort_desc_sorted|]. split; [done|].
  split; [unfold sorted; by rewrite sort_desc_perm|]. split; [done|].
  split; [rewrite Hpages, Htot; unfold pages_of; by rewrite decide_False by lia|].
  rewrite Htot. by split.
Qed.

Lemma uploads_view_window_witness :
  ∃ body sorted pages,
    get_user_images example_store 7 1 20 = OK200 body ∧
    sorted ≡ₚ filter (uploaded_by 7) (images example_store) ∧
    newest_first Image.createdAt sorted ∧
    doc <$> pb_images body = take 20 (drop 0 sorted) ∧
    pb_total body = length sorted ∧
    pb_page body = 1%Z ∧
    pb_pages body = Some pages ∧
    ((pages - 1) * 20 < Z.of_nat (pb_total body))%Z ∧
    (Z.of_nat (pb_total body) ≤ pages * 20)%Z.
Proof.
  apply (uploads_view_window example_store 7 1 20); lia.
Defined.

(** X8. Every entry of every page of the collection view is marked liked
    exactly when some Like record of the requester points at it. *)
Theorem collection_marks_liked (s : Store) (user : ObjectId) (page limit : Z)
    (body : PageBody) (j : ImageJson) :
  get_collection s user page limit = OK200 body →
  j ∈ pb_images body →
  isLiked j = true ↔ Exists (like_of user (Image._id (doc j))) (likes s).
Proof.
  rewrite get_collection_body. intros [= <-]. simpl.
  intros (img & -> & _)%list_elem_of_fmap. simpl. apply some_liked_spec.
Qed.

Lemma collection_marks_liked_witness :
  isLiked (mkImageJson example_image_b true) = true ↔
  Exists (like_of 7 (Image._id example_image_b)) (likes example_store).
Proof.
  apply (collection_marks_liked example_store 7 1 20
           (mkPageBody [mkImageJson example_image_b true;
                        mkImageJson example_image_a true] 2 1 (Some 1%Z))
           (mkImageJson example_image_b true)).
  - reflexivity.
  - simpl. left.
Defined.

Lemma uniqueImages_has_id s user d :
  d ∈ userUploads s user ++ likedImageDocs s user →
  Image._id d ∈ Image._id <$> uniqueImages s user.
Proof.
  intros Hd. unfold uniqueImages. rewrite sort_desc_perm, dedup_ids.
  apply list_elem_of_fmap. by exists d.
Qed.

(** X9. Whatever a page of the uploads view or of the liked view of a user
    lists is, by id, an entry of the collection list of the same user. *)
Theorem views_within_collection (s : Store) (user : ObjectId)
    (page limit : Z) (body : PageBody) (j : ImageJson) :
  get_user_images s user page limit = OK200 body ∨
  get_liked s user page limit = OK200 body →
  j ∈ pb_images body →
  Image._id (doc j) ∈ Image._id <$> uniqueImages s user.
Proof.
  intros [Hget|Hget] Hj; apply uniqueImages_has_id, elem_of_app.
  - left. destruct (get_user_images_docs _ _ _ _ _ Hget)
      as (skipped & Hsk & Hdocs & _).
    assert (doc j ∈ doc <$> pb_images body) as Hd.
    { apply list_elem_of_fmap. by exists j. }
    rewrite Hdocs in Hd.
    eapply elem_of_sublist in Hd; [|apply mongo_limit_sublist].
    eapply elem_of_sublist in Hd; [|by eapply mongo_skip_sublist].
    by apply elem_of_sort_desc in Hd.
  - right. destruct (get_liked_entries _ _ _ _ _ _ Hget Hj)
      as (_ & Hin & l & Hl & Hby & Hid).
    unfold likedImageDocs. apply list_elem_of_filter. split; [|done].
    apply liked_image_id, Exists_exists. exists l. by repeat split.
Qed.

Lemma views_within_collection_witness :
  Image._id example_image_a ∈ Image._id <$> uniqueImages example_store 7.
Proof.
  apply (views_within_collection example_store 7 1 20
           (mkPageBody [mkImageJson example_image_a false] 1 1 (Some 1%Z))
           (mkImageJson example_image_a false)).
  - left. reflexivity.
  - simpl. left.
Defined.

Lemma get_collection_docs s user page limit :
  (1 ≤ page)%Z → (0 < limit)%Z →
  reply_docs (get_collection s user page limit) =
  take (Z.to_nat limit)
       (drop (Z.to_nat ((page - 1) * limit)) (uniqueImages s user)).
Proof.
  intros Hp Hl. rewrite get_collection_body.
  cbn [reply_docs pb_images]. by rewrite doc_annotated, slice_page.
Qed.

Lemma concat_windows {A} (l : list A) (size n : nat) :
  concat ((λ p, take size (drop ((p - 1) * size) l)) <$> seq 1 n) =
  take (n * size) l.
Proof.
  induction n as [|n IH]; [done|].
  rewrite seq_S, fmap_app, concat_app, IH. simpl.
  rewrite app_nil_r, Nat.sub_0_r, take_take_drop. f_equal. lia.
Qed.

(** X10. With a page size [limit > 0], the pages 1 to [n] of the collection
    view, put end to end, are the first [n * limit] entries of the collection
    list; walked up to the reported page count they are the whole list, each
    entry once and in order. *)
Theorem collection_pages_walk (s : Store) (user : ObjectId) (limit : Z) :
  (0 < limit)%Z →
  (∀ n, concat ((λ p, reply_docs (get_collection s user (Z.of_nat p) limit))
                  <$> seq 1 n) =
        take (n * Z.to_nat limit) (uniqueImages s user)) ∧
  concat ((λ p, reply_docs (get_collection s user (Z.of_nat p) limit))
            <$> seq 1 (Z.to_nat
                         (ceil_div (Z.of_nat (length (uniqueImages s user)))
                                   limit))) =
    uniqueImages s user.
Proof.
  intros Hl.
  assert (∀ n, concat ((λ p, reply_docs
                               (get_collection s user (Z.of_nat p) limit))
                         <$> seq 1 n) =
               take (n * Z.to_nat limit) (uniqueImages s user)) as Hwalk.
  { intros n. rewrite <- concat_windows. f_equal.
    apply list_fmap_ext. intros i p Hp.
    apply lookup_seq in Hp as [-> _].
    rewrite get_collection_docs by lia. do 2 f_equal. nia. }
  split; [exact Hwalk|].
  rewrite Hwalk. apply take_ge.
  pose proof (ceil_div_spec (Z.of_nat (length (uniqueImages s user))) limit Hl).
  nia.
Qed.

Lemma collection_pages_walk_witness :
  concat ((λ p, reply_docs (get_collection example_store 7 (Z.of_nat p) 1))
            <$> seq 1 2) =
  take (2 * 1) (uniqueImages example_store 7).
Proof.
  refine (proj1 (collection_pages_walk example_store 7 1 _) 2). lia.
Defined.

(** X11. Page 0 of the collection view is no error: the route answers 200
    with no entries and the total of the collection list, whatever the page
    size. *)
Theorem collection_page_zero (s : Store) (user : ObjectId) (limit : Z) :
  get_collection s user 0 limit =
  OK200 (mkPageBody [] (length (uniqueImages s user)) 0
           (pages_of (length (uniqueImages s user)) limit)).
Proof.
  rewrite get_collection_body. do 2 f_equal.
  assert (slice (uniqueImages s user) ((0 - 1) * limit)
                ((0 - 1) * limit + limit) = []) as ->; [|done].
  unfold slice. replace ((0 - 1) * limit + limit)%Z with 0%Z by lia.
  assert (relative_index 0 (length (uniqueImages s user)) = 0) as ->.
  { unfold relative_index. rewrite decide_False by lia. lia. }
  done.
Qed.

(** * Uploading *)

Lemma sum_likesCount_app imgs imgs' :
  sum_likesCount (imgs ++ imgs') =
  (sum_likesCount imgs + sum_likesCount imgs')%Z.
Proof.
  unfold sum_likesCount. induction imgs as [|d imgs IH]; csimpl; [done|].
  rewrite IH. lia.
Qed.

Lemma get_stats_sum s user :
  get_stats s user =
  OK200 (sum_likesCount (filter (uploaded_by user) (images s))).
Proof. unfold get_stats. by rewrite stats_fold, Z.add_0_l. Qed.

Lemma isLength_len_le_js_length str : isLength_len str ≤ js_length str.
Proof.
  induction str as [|c rest IH]; [done|].
  cbn [isLength_len js_length].
  destruct (utf8_continuation c); [exact IH|].
  destruct (presentation_selector (String c rest)),
           (240 <=? Ascii.nat_of_ascii c); lia.
Qed.

(** X12. An upload with a file, a description of at most 500 UTF-16 code
    units, an [isPublic] field that is absent or one of true, false, 1 and 0,
    and a file name no stored image has answers 201; the store gains exactly
    one image, owned by the requester, with a fresh id, the counter at zero,
    the request's time, and public exactly when the field is the string
    true; no Like record changes and the stats of every user read as
    before. *)
Theorem upload_adds_one_image (s : Store) (user : ObjectId) (f : UploadedFile)
    (description : string) (isPublic : option string) (now : Z) :
  js_length description ≤ 500 →
  isPublic_passes isPublic →
  uf_filename f ∉ Image.filename <$> images s →
  let image := Image.mk (nextId s) (uf_filename f) (uf_originalname f)
                        ("/uploads/" +:+ uf_filename f) user description
                        (bool_decide (isPublic = Some "true")) 0%Z now in
  upload s user (Some f) description isPublic now =
    (mkStore (images s ++ [image]) (likes s) (S (nextId s)), Created201 image) ∧
  ∀ u, get_stats (upload s user (Some f) description isPublic now).1 u =
       get_stats s u.
Proof.
  intros Hlen Hpub Hname image.
  pose proof (isLength_len_le_js_length description) as Hle.
  assert (upload s user (Some f) description isPublic now =
          (mkStore (images s ++ [image]) (likes s) (S (nextId s)),
           Created201 image)) as Hup.
  { unfold upload. rewrite decide_False by lia.
    rewrite decide_False by tauto. rewrite decide_False by lia.
    by rewrite decide_False. }
  split; [done|]. intros u. rewrite Hup, !get_stats_sum. simpl.
  rewrite filter_app, sum_likesCount_app. f_equal.
  destruct (decide (uploaded_by u image)).
  - rewrite filter_cons_True by done. unfold sum_likesCount. simpl. lia.
  - rewrite filter_cons_False by done. unfold sum_likesCount. simpl. lia.
Qed.

Lemma upload_adds_one_image_witness :
  example_upload.2 =
    Created201 (Image.mk 5 "c.png" "c.png" "/uploads/c.png" 8
                  accented_description true 0%Z 600%Z) ∧
  get_stats example_upload.1 7 = get_stats example_store 7.
Proof.
  refine (let H := upload_adds_one_image example_store 8
                     (mkUploadedFile "c.png" "c.png") accented_description
                     (Some "true") 600%Z _ _ _
          in conj (f_equal snd (proj1 H)) (proj2 H 7)).
  - vm_compute. lia.
  - vm_compute. apply list_elem_of_In. simpl. tauto.
  - vm_compute. intros H. apply list_elem_of_In in H. simpl in H.
    destruct H as [H|[H|[]]]; discriminate.
Defined.

(** X13. An upload without a file, or with a description that [isLength]
    measures above 500, or with an [isPublic] field that is none of true,
    false, 1 and 0, answers 400; one that passes these checks but whose
    description has more than 500 UTF-16 code units or whose file name a
    stored image already has answers 500; in each case the store is left as
    it was. *)
Theorem upload_refused_keeps_store (s : Store) (user : ObjectId)
    (file : option UploadedFile) (description : string)
    (isPublic : option string) (now : Z) :
  (file = None ∨ 500 < isLength_len description ∨ ¬ isPublic_passes isPublic →
   upload s user file description isPublic now = (s, BadRequest400)) ∧
  (∀ f, file = Some f →
        isLength_len description ≤ 500 →
        isPublic_passes isPublic →
        500 < js_length description ∨
        uf_filename f ∈ Image.filename <$> images s →
        upload s user file description isPublic now = (s, Error500)).
Proof.
  split.
  - intros Hbad. unfold upload. destruct file as [f|]; [|done].
    destruct (decide (500 < isLength_len description)); [done|].
    destruct (decide (¬ isPublic_passes isPublic)); [done|].
    destruct Hbad as [?|[?|?]]; done.
  - intros f -> Hlen Hpub Hbad. unfold upload.
    rewrite decide_False by lia. rewrite decide_False by tauto.
    destruct (decide (500 < js_length description)); [done|].
    destruct Hbad as [?|Hname]; [done|]. by rewrite decide_True.
Qed.

Lemma upload_refused_keeps_store_witness :
  upload example_store 9 (photo "a.png") "" (Some "1") 700%Z =
    (example_store, Error500).
Proof.
  refine (proj2 (upload_refused_keeps_store example_store 9 (photo "a.png")
                   "" (Some "1") 700%Z) (mkUploadedFile "a.png" "a.png")
                _ _ _ _).
  - reflexivity.
  - simpl. lia.
  - vm_compute. apply list_elem_of_In. simpl. tauto.
  - right. vm_compute. apply list_elem_of_In. simpl. tauto.
Defined.

(** * Deleting *)

Lemma findOne_deleteOne_other i j c :
  i ≠ j →
  findOne (has_id j) (deleteOne (has_id i) c) = findOne (has_id j) c.
Proof.
  intros Hij. induction c as [|x c IH]; simpl; [done|].
  unfold has_id in *. destruct (decide (Image._id x = i)) as [Hx|Hx]; simpl.
  - by rewrite decide_False by congruence.
  - by rewrite IH.
Qed.

Lemma filter_filter_keep {A} (P Q : A → Prop)
    `{!∀ d, Decision (P d)} `{!∀ d, Decision (Q d)} (c : list A) :
  (∀ d, P d → Q d) → filter P (filter Q c) = filter P c.
Proof.
  intros HPQ. induction c as [|x c IH]; [done|].
  destruct (decide (Q x)) as [HQ|HQ].
  - rewrite (filter_cons_True Q) by done. rewrite !(filter_cons P).
    by rewrite IH.
  - rewrite (filter_cons_False Q) by done.
    rewrite (filter_cons_False P) by (intros HP; by apply HQ, HPQ). done.
Qed.

(** X14. On every store the routes have built, once the uploader has
    deleted an image no document of that id is stored; a later toggle or
    delete on that id answers 404 and leaves the store as it is; and the
    collection list of no user contains the id. *)
Theorem deleted_image_is_gone (reqs : list Request) (user imageId : ObjectId)
    (image : Image.t) :
  let s := run reqs empty_store in
  let s' := (delete_image s user imageId).1 in
  findOne (has_id imageId) (images s) = Some image →
  Image.uploadedBy image = user →
  findOne (has_id imageId) (images s') = None ∧
  (∀ who now, toggle_like s' who imageId now = (s', NotFound404)) ∧
  (∀ who, delete_image s' who imageId = (s', NotFound404)) ∧
  (∀ who, imageId ∉ Image._id <$> uniqueImages s' who).
Proof.
  intros s s' Himg Hby.
  pose proof (wf_reachable reqs) as Hwf. fold s in Hwf.
  assert (images s' = deleteOne (has_id imageId) (images s)) as Himages.
  { unfold s', delete_image. rewrite Himg.
    by rewrite decide_False by (intros Hne; apply Hne; by rewrite Hby). }
  assert (Forall (λ d, Image._id d ≠ imageId) (images s')) as Hgone.
  { rewrite Himages.
    exact (deleteOne_none_left Image._id (images s) imageId
             (wf_image_nodup _ Hwf)). }
  assert (findOne (has_id imageId) (images s') = None) as Hnone.
  { by apply findOne_None. }
  split_and!; [done | | |].
  - intros who now. by apply toggle_like_missing.
  - intros who. unfold delete_image. by rewrite Hnone.
  - intros who Hin. apply list_elem_of_fmap in Hin as (d & Hid & Hd).
    destruct (uniqueImages_from_store _ _ _ Hd) as [Hd' _].
    rewrite Forall_forall in Hgone. by apply (Hgone d Hd').
Qed.

Lemma deleted_image_is_gone_witness :
  findOne (has_id 0) (images (delete_image example_store 7 0).1) = None.
Proof.
  refine (proj1 (deleted_image_is_gone example_requests 7 0 example_image_a
                   _ _)); reflexivity.
Defined.

(** X15. A successful delete touches nothing else: every image of another
    id is stored as before, the Like records on every other image are the
    same, and the stats of every user other than the uploader read as
    before. *)
Theorem delete_image_leaves_others (s : Store) (user imageId : ObjectId)
    (image : Image.t) :
  findOne (has_id imageId) (images s) = Some image →
  Image.uploadedBy image = user →
  (∀ other, other ≠ imageId →
     findOne (has_id other) (images (delete_image s user imageId).1) =
       findOne (has_id other) (images s) ∧
     filter (like_on other) (likes (delete_image s user imageId).1) =
       filter (like_on other) (likes s)) ∧
  (∀ u, u ≠ user →
     get_stats (delete_image s user imageId).1 u = get_stats s u).
Proof.
  intros Himg Hby. unfold delete_image. rewrite Himg.
  rewrite decide_False by (intros Hne; apply Hne; by rewrite Hby).
  simpl. split.
  - intros other Hne. split; [by apply findOne_deleteOne_other|].
    unfold deleteMany. apply filter_filter_keep.
    unfold like_on. intros l Hl Hl'. congruence.
  - intros u Hu. rewrite !get_stats_sum. simpl. do 2 f_equal.
    apply (filter_deleteOne _ _ _ image); [done|].
    unfold uploaded_by. congruence.
Qed.

Lemma delete_image_leaves_others_witness :
  get_stats (delete_image example_store 7 0).1 8 = get_stats example_store 8.
Proof.
  refine (proj2 (delete_image_leaves_others example_store 7 0 example_image_a
                   _ _) 8 _); [reflexivity | reflexivity | discriminate].
Defined.

(** * The client's list against the store *)

Lemma unlike_leaves_no_like s user imageId existing :
  consistent s →
  findOne (like_of user imageId) (likes s) = Some existing →
  Forall (λ l, ¬ like_of user imageId l)
         (deleteOne (like_has_id (Like._id existing)) (likes s)).
Proof.
  intros Hs Hlike. destruct (findOne_Some _ _ _ Hlike) as [Hin Hof].
  pose proof (deleteOne_unique Like._id (likes s) existing
                (cons_like_ids _ Hs) Hin) as Hperm.
  change (λ d, Like._id d = Like._id existing)
    with (like_has_id (Like._id existing)) in Hperm.
  pose proof (cons_pairs _ Hs) as Hp. rewrite Hperm in Hp.
  rewrite fmap_cons in Hp. apply NoDup_cons in Hp as [Hnot _].
  apply Forall_forall. intros l Hl Hlof. apply Hnot.
  apply like_pair_of in Hof, Hlof. rewrite Hof, <- Hlof.
  apply list_elem_of_fmap. by exists l.
Qed.

(** What a toggle that finds the image answers is what the store then
    holds. *)
Lemma toggle_like_reply_matches_store s user imageId now image :
  consistent s →
  findOne (has_id imageId) (images s) = Some image →
  ∃ data stored,
    (toggle_like s user imageId now).2 = OK200 data ∧
    findOne (has_id imageId) (images (toggle_like s user imageId now).1)
      = Some stored ∧
    Image.likesCount stored = lb_likesCount data ∧
    (lb_isLiked data = true ↔
     Exists (like_of user imageId) (likes (toggle_like s user imageId now).1)).
Proof.
  intros Hs Himg. destruct (findOne_Some _ _ _ Himg) as [_ Hid].
  destruct (findOne (like_of user imageId) (likes s)) as [existing|] eqn:Hlike.
  - rewrite (toggle_like_existing _ _ _ _ _ Himg _ Hlike). simpl.
    do 2 eexists. split_and!; [done | by apply (findOne_replaceOne _ image)
                              | done | ].
    simpl. split; [done|]. intros Hex. exfalso.
    apply Exists_exists in Hex as (l & Hl & Hof).
    pose proof (unlike_leaves_no_like _ _ _ _ Hs Hlike) as Hnone.
    rewrite Forall_forall in Hnone. by apply (Hnone l).
  - rewrite (toggle_like_fresh _ _ _ _ _ Himg Hlike). simpl.
    do 2 eexists. split_and!; [done | by apply (findOne_replaceOne _ image)
                              | done | ].
    simpl. split; [|done]. intros _. apply Exists_app. right.
    apply Exists_cons_hd. by split.
Qed.

(** X16. On every store the routes have built, after a toggle on an
    existing image the client's list shows, on each of its entries for that
    image, the like status and the counter the store now holds; the list
    keeps its entries' ids and order. *)
Theorem client_toggle_matches_store (reqs : list Request)
    (user imageId : ObjectId) (now : Z) (image : Image.t)
    (prevImages : list ImageJson) :
  let s := run reqs empty_store in
  let response := (toggle_like s user imageId now).2 in
  let s' := (toggle_like s user imageId now).1 in
  findOne (has_id imageId) (images s) = Some image →
  (Image._id ∘ doc) <$> useImages.toggleLike (toString imageId) response
                          prevImages
    = (Image._id ∘ doc) <$> prevImages ∧
  ∀ j, j ∈ useImages.toggleLike (toString imageId) response prevImages →
       Image._id (doc j) = imageId →
       (isLiked j = true ↔ Exists (like_of user imageId) (likes s')) ∧
       ∃ stored, findOne (has_id imageId) (images s') = Some stored ∧
                 Image.likesCount stored = Image.likesCount (doc j).
Proof.
  intros s response s' Himg.
  pose proof (consistent_reachable reqs) as Hs. fold s in Hs.
  destruct (toggle_like_reply_matches_store s user imageId now image Hs Himg)
    as (data & stored & Hreply & Hstored & Hcount & Hliked).
  unfold response, s'. rewrite Hreply. simpl. split.
  - rewrite <- list_fmap_compose. apply list_fmap_ext. intros i j _. simpl.
    by case_decide.
  - intros j Hj Hid. apply list_elem_of_fmap in Hj as (j0 & -> & _).
    case_decide as Hdec; simpl in *.
    + split; [done|]. exists stored. split; [done|]. by rewrite or_zero_id.
    + destruct Hdec. by rewrite Hid.
Qed.

Lemma client_toggle_matches_store_witness :
  (Image._id ∘ doc) <$>
    useImages.toggleLike (toString 1) (toggle_like example_store 8 1 600%Z).2
      [mkImageJson example_image_b false; mkImageJson example_image_a true]
  = (Image._id ∘ doc) <$>
      [mkImageJson example_image_b false; mkImageJson example_image_a true].
Proof.
  refine (proj1 (client_toggle_matches_store example_requests 8 1 600%Z
                   example_image_b
                   [mkImageJson example_image_b false;
                    mkImageJson example_image_a true] _)).
  reflexivity.
Defined.

(** X17. If every entry of the client's list is a stored image, then after
    a delete request, granted or refused, every entry the client keeps is
    still a stored image, and after a granted one no entry has the deleted
    id. *)
Theorem client_delete_keeps_stored (s : Store) (user imageId : ObjectId)
    (prevImages : list ImageJson) :
  let response := (delete_image s user imageId).2 in
  let s' := (delete_image s user imageId).1 in
  Forall (λ j, doc j ∈ images s) prevImages →
  Forall (λ j, doc j ∈ images s')
         (useImages.deleteImage (toString imageId) response prevImages) ∧
  (response = OK200 () →
   imageId ∉ (Image._id ∘ doc) <$>
     useImages.deleteImage (toString imageId) response prevImages).
Proof.
  intros response s' Hprev. unfold response, s', delete_image.
  destruct (findOne (has_id imageId) (images s)) as [image|]; [|done].
  case_decide; [done|]. simpl. split.
  - apply Forall_forall. intros j [Hne Hj]%list_elem_of_filter.
    rewrite Forall_forall in Hprev. apply deleteOne_keeps; [by apply Hprev|].
    unfold has_id. intros Hid. apply Hne. by rewrite Hid.
  - intros _ Hin. apply list_elem_of_fmap in Hin as (j & Hid & Hj).
    apply list_elem_of_filter in Hj as [Hne _]. apply Hne. simpl in Hid.
    by rewrite Hid.
Qed.

Lemma client_delete_keeps_stored_witness :
  Forall (λ j, doc j ∈ images (delete_image example_store 7 0).1)
    (useImages.deleteImage (toString 0) (delete_image example_store 7 0).2
       [mkImageJson example_image_b true; mkImageJson example_image_a true]).
Proof.
  refine (proj1 (client_delete_keeps_stored example_store 7 0
                   [mkImageJson example_image_b true;
                    mkImageJson example_image_a true] _)).
  vm_compute. repeat constructor; apply list_elem_of_In; simpl; tauto.
Defined.

(** * Stepping through the viewer *)

Lemma handleNext_in_range (length i : Z) :
  (0 ≤ i < length)%Z →
  FullscreenViewer.handleNext length (Some i) =
    Some (if decide (i + 1 = length)%Z then 0%Z else (i + 1)%Z).
Proof.
  intros Hi. unfold FullscreenViewer.handleNext.
  rewrite decide_False by lia. f_equal. case_decide as Hlast.
  - rewrite Hlast. apply Z.rem_same. lia.
  - apply Z.rem_small. lia.
Qed.

Lemma handlePrev_in_range (length i : Z) :
  (0 ≤ i < length)%Z →
  FullscreenViewer.handlePrev length (Some i) =
    Some (if decide (i = 0)%Z then (length - 1)%Z else (i - 1)%Z).
Proof.
  intros Hi. unfold FullscreenViewer.handlePrev.
  rewrite decide_False by lia. f_equal. case_decide as Hfirst.
  - subst i. replace (0 - 1 + length)%Z with (length - 1)%Z by lia.
    apply Z.rem_small. lia.
  - rewrite Z.rem_mod_nonneg by lia.
    replace (i - 1 + length)%Z with (i - 1 + 1 * length)%Z by lia.
    rewrite Z.mod_add by lia. apply Z.mod_small. lia.
Qed.

(** X18. With at least one image and the index on an image, stepping to
    the next or to the previous image lands on an image again, wrapping at
    the two ends, and each step undoes the other. *)
Theorem viewer_steps_wrap (length i : Z) :
  (0 ≤ i < length)%Z →
  ∃ next prev,
    FullscreenViewer.handleNext length (Some i) = Some next ∧
    FullscreenViewer.handlePrev length (Some i) = Some prev ∧
    (0 ≤ next < length)%Z ∧
    (0 ≤ prev < length)%Z ∧
    next = (if decide (i + 1 = length)%Z then 0 else i + 1)%Z ∧
    prev = (if decide (i = 0)%Z then length - 1 else i - 1)%Z ∧
    FullscreenViewer.handlePrev length (Some next) = Some i ∧
    FullscreenViewer.handleNext length (Some prev) = Some i.
Proof.
  intros Hi. rewrite handleNext_in_range, handlePrev_in_range by done.
  do 2 eexists. split; [done|]. split; [done|].
  split; [case_decide; lia|]. split; [case_decide; lia|].
  split; [done|]. split; [done|]. split.
  - rewrite handlePrev_in_range by (case_decide; lia).
    f_equal. repeat case_decide; lia.
  - rewrite handleNext_in_range by (case_decide; lia).
    f_equal. repeat case_decide; lia.
Qed.

Lemma viewer_steps_wrap_witness :
  ∃ next prev,
    FullscreenViewer.handleNext 3 (Some 2%Z) = Some next ∧
    FullscreenViewer.handlePrev 3 (Some 2%Z) = Some prev ∧
    (0 ≤ next < 3)%Z ∧
    (0 ≤ prev < 3)%Z ∧
    next = (if decide (2 + 1 = 3)%Z then 0 else 2 + 1)%Z ∧
    prev = (if decide (2 = 0)%Z then 3 - 1 else 2 - 1)%Z ∧
    FullscreenViewer.handlePrev 3 (Some next) = Some 2%Z ∧
    FullscreenViewer.handleNext 3 (Some prev) = Some 2%Z.
Proof. apply (viewer_steps_wrap 3 2). lia. Defined.

Lemma handleNext_iter (length i : Z) (n : nat) :
  (0 ≤ i < length)%Z →
  Nat.iter n (FullscreenViewer.handleNext length) (Some i) =
    Some ((i + Z.of_nat n) `mod` length)%Z.
Proof.
  intros Hi. induction n as [|n IH]; simpl.
  - rewrite Z.add_0_r. by rewrite Z.mod_small.
  - rewrite IH. unfold FullscreenViewer.handleNext.
    rewrite decide_False by lia. f_equal.
    pose proof (Z.mod_pos_bound (i + Z.of_nat n) length ltac:(lia)).
    rewrite Z.rem_mod_nonneg by lia.
    rewrite Z.add_mod_idemp_l by lia. f_equal. lia.
Qed.

(** X19. With the index on an image, stepping forward as many times as
    there are images comes back to the image the walk started from. *)
Theorem viewer_full_round (length i : Z) :
  (0 ≤ i < length)%Z →
  Nat.iter (Z.to_nat length) (FullscreenViewer.handleNext length) (Some i)
    = Some i.
Proof.
  intros Hi. rewrite handleNext_iter by done. f_equal.
  rewrite Z2Nat.id by lia.
  replace (i + length)%Z with (i + 1 * length)%Z by lia.
  rewrite Z.mod_add by lia. apply Z.mod_small. lia.
Qed.

Lemma viewer_full_round_witness :
  Nat.iter (Z.to_nat 4) (FullscreenViewer.handleNext 4) (Some 1%Z) = Some 1%Z.
Proof. apply (viewer_full_round 4 1). lia. Defined.

(** * The file checks *)

(** X20. A file whose MIME type the server's filter accepts and whose size
    is at most 5 MiB is never refused by the client's file selection. *)
Theorem client_accepts_what_server_accepts (mimetype : string) (size : Z) :
  fileFilter mimetype = true →
  (size ≤ 5 * 1024 * 1024)%Z →
  ImageUploadModal.handleFileSelect mimetype size = ImageUploadModal.Selected.
Proof.
  intros Hmime Hsize. apply bool_decide_eq_true in Hmime.
  unfold ImageUploadModal.handleFileSelect.
  assert (String.prefix "image/" mimetype = true) as ->.
  { unfold allowedMimes in Hmime.
    repeat (apply elem_of_cons in Hmime as [->|Hmime]; [reflexivity|]).
    by apply elem_of_nil in Hmime. }
  simpl. by rewrite decide_False by lia.
Qed.

Lemma client_accepts_what_server_accepts_witness :
  ImageUploadModal.handleFileSelect "image/png" 1024 =
    ImageUploadModal.Selected.
Proof.
  apply (client_accepts_what_server_accepts "image/png" 1024).
  - reflexivity.
  - lia.
Defined.

(** * No orphaned likes *)

(** X21. On every store the routes have built, every Like record points at
    a stored image: a delete takes the likes of its image along, and a like
    is only placed on an image that was found. *)
Theorem likes_point_at_stored_images (reqs : list Request) :
  Forall (λ l, ∃ d, d ∈ images (run reqs empty_store) ∧
                    Image._id d = Like.imageId l)
         (likes (run reqs empty_store)).
Proof.
  pose proof (wf_refs _ (wf_reachable reqs)) as Hrefs.
  eapply Forall_impl; [exact Hrefs|]. simpl.
  intros l (d & Hd & Hin)%list_elem_of_fmap. by exists d.
Qed.
